(** * Proto compilation scripts: [scripts/proto/compile_python.py] and
      [scripts/proto/compile_typescript.py]

    Both scripts are straight-line module-level code: create the output
    directory, log, enumerate [proto/*.proto], run one compiler process per
    file with [check=False], (Python target only) run [protol] once over the
    whole batch, log completion.

    The scripts are embedded in a state-and-exception monad over a world
    made of a file system and a trace of observable events.  The library
    calls they make ([Path.mkdir], [Path.glob], [subprocess.run],
    [logger.info]) are modelled next to them; the external tools themselves
    are an arbitrary function of the argument vector and the file system. *)

From Stdlib Require Import ZArith String Ascii.
From stdpp Require Import base option list strings gmap.

Local Open Scope string_scope.
Local Open Scope list_scope.
Local Open Scope nat_scope.

(** ** Paths *)

(** A relative [pathlib.Path], as its [parts]. The empty list is [Path(".")]. *)
Definition path : Type := list string.

(** [str(p)] *)
Definition path_str (p : path) : string :=
  match p with
  | [] => "."
  | _ => String.concat "/" p
  end.

Global Arguments path_str : simpl never.

(** ** File system *)

Inductive kind : Type := Dir | File.

Global Instance kind_eq_dec : EqDecision kind.
Proof. solve_decision. Defined.

(** Entries below the working directory, keyed by their parts.  Contents of
    regular files are opaque to the scripts and are left out. *)
Definition FS : Type := gmap (list string) kind.

Inductive errno : Type := ENOENT | ENOTDIR.

(** Path resolution, one component at a time, starting in directory [cur]. *)
Fixpoint resolve (fs : gmap (list string) kind) (cur : path) (rest : list string)
  : errno + kind :=
  match rest with
  | [] => inr Dir
  | c :: rest' =>
      match fs !! (cur ++ [c]) with
      | None => inl ENOENT
      | Some File => match rest' with [] => inr File | _ => inl ENOTDIR end
      | Some Dir => resolve fs (cur ++ [c]) rest'
      end
  end.

(** [os.stat(p)] from the working directory. *)
Definition stat (fs : FS) (p : path) : errno + kind := resolve fs [] p.

(** [Path.is_dir]: false on any error. *)
Definition is_dir (fs : FS) (p : path) : bool :=
  match stat fs p with
  | inr Dir => true
  | _ => false
  end.

(** [p.parent] *)
Definition parent (p : path) : path := take (length p - 1) p.

(** ** Exceptions *)

Inductive exn : Type :=
| FileExistsError (filename : string)
| FileNotFoundError (filename : string)
| NotADirectoryError (filename : string)
| CalledProcessError (returncode : Z) (cmd : list string).

Definition is_FileNotFoundError (e : exn) : bool :=
  match e with FileNotFoundError _ => true | _ => false end.

(** ** Events *)

Inductive event : Type :=
| EvLog (msg : string)
    (* a record emitted by [logger.info], formatted *)
| EvGlob (dir : path) (pattern : string) (result : list path)
    (* a directory scan by [Path.glob] and the paths it yields *)
| EvSpawn (args : list string) (seen : gmap (list string) kind)
    (* a child process was started; [seen] is the file system it starts in *)
| EvExit (args : list string) (returncode : Z) (output : string).
    (* the child exited; [output] is what it wrote to the inherited streams *)

Record World : Type := mkWorld {
  fs : gmap (list string) kind;
  trace : list event
}.

Definition init (fs0 : FS) : World := mkWorld fs0 [].

(** ** The monad *)

Definition M (A : Type) : Type := World → (exn + A) * World.

Global Instance M_ret : MRet M := λ A a w, (inr a, w).

Global Instance M_bind : MBind M := λ A B k m w,
  match m w with
  | (inr a, w') => k a w'
  | (inl e, w') => (inl e, w')
  end.

Definition raise {A : Type} (e : exn) : M A := λ w, (inl e, w).

(** [try: m except <e>: h e] *)
Definition try_except {A : Type} (m : M A) (h : exn → M A) : M A := λ w,
  match m w with
  | (inl e, w') => h e w'
  | r => r
  end.

(** [for x in xs: body x] *)
Fixpoint for_each {A : Type} (xs : list A) (body : A → M unit) : M unit :=
  match xs with
  | [] => mret tt
  | x :: xs' => body x ;; for_each xs' body
  end.

(** ** [os.mkdir] and [Path.mkdir] *)

(** [os.mkdir(p)]: the parent must resolve to a directory and [p] itself
    must not exist. *)
Definition os_mkdir (p : path) : M unit := λ w,
  match p with
  | [] => (inl (FileExistsError (path_str p)), w)
  | _ =>
      match stat (fs w) (parent p) with
      | inl ENOENT => (inl (FileNotFoundError (path_str p)), w)
      | inl ENOTDIR | inr File => (inl (NotADirectoryError (path_str p)), w)
      | inr Dir =>
          match fs w !! p with
          | Some _ => (inl (FileExistsError (path_str p)), w)
          | None => (inr tt, mkWorld (<[p := Dir]> (fs w)) (trace w))
          end
      end
  end.

(** The [except OSError] arm of [Path.mkdir]:
    [if not exist_ok or not self.is_dir(): raise]. *)
Definition mkdir_except_OSError (self : path) (exist_ok : bool) (e : exn) : M unit :=
  λ w, if exist_ok && is_dir (fs w) self then (inr tt, w) else (inl e, w).

(** [Path.mkdir] on the prefix of [p] of length [n] (the recursion of
    [Path.mkdir] is on [self.parent], the prefix one shorter;
    [self.parent == self] exactly for the empty prefix):
<<
    try:
        os.mkdir(self, mode)
    except FileNotFoundError:
        if not parents or self.parent == self:
            raise
        self.parent.mkdir(parents=True, exist_ok=True)
        self.mkdir(mode, parents=False, exist_ok=exist_ok)
    except OSError:
        if not exist_ok or not self.is_dir():
            raise
>> *)
Fixpoint Path_mkdir_prefix (n : nat) (p : path) (parents exist_ok : bool) : M unit :=
  let self := take n p in
  try_except (os_mkdir self) (λ e,
    if is_FileNotFoundError e then
      match n with
      | O => raise e
      | S k =>
          if parents then
            Path_mkdir_prefix k p true true ;;
            try_except (os_mkdir self) (λ e',
              if is_FileNotFoundError e' then raise e'
              else mkdir_except_OSError self exist_ok e')
          else raise e
      end
    else mkdir_except_OSError self exist_ok e).

Definition Path_mkdir (p : path) (parents exist_ok : bool) : M unit :=
  Path_mkdir_prefix (length p) p parents exist_ok.

(** ** [Path.glob] *)

(** Shell-style matching of one name against a pattern with [*] and [?]
    (the scripts only use ["*.proto"]; bracket expressions are not
    modelled).  As in [pathlib], a leading dot is not special. *)
Fixpoint fnmatch (pat : string) : string → bool :=
  match pat with
  | EmptyString => λ name, match name with EmptyString => true | _ => false end
  | String c pat' =>
      if Ascii.eqb c "*" then
        fix star (name : string) : bool :=
          fnmatch pat' name
          || match name with
             | EmptyString => false
             | String _ name' => star name'
             end
      else if Ascii.eqb c "?" then
        λ name, match name with
                | EmptyString => false
                | String _ name' => fnmatch pat' name'
                end
      else
        λ name, match name with
                | EmptyString => false
                | String d name' => Ascii.eqb c d && fnmatch pat' name'
                end
  end.

(** The name of [q] if it is an entry directly inside directory [d]. *)
Definition entry_name (d q : path) : option string :=
  if decide (q ≠ [] ∧ parent q = d) then last q else None.

(** [os.scandir(d)]: the names inside [d], in the order the file system
    gives them. *)
Definition scandir (fs : FS) (d : path) : list string :=
  omap (λ kv : list string * kind, entry_name d kv.1) (map_to_list fs).

(** [self.glob(pattern)] for a one-component pattern.  The generator scans
    the directory when its first element is requested and yields from that
    snapshot, so the whole result is fixed at that moment; a directory that
    does not exist yields nothing. *)
Definition glob_paths (fs : FS) (self : path) (pattern : string) : list path :=
  if is_dir fs self
  then (λ name, self ++ [name]) <$> List.filter (fnmatch pattern) (scandir fs self)
  else [].

Definition Path_glob (self : path) (pattern : string) : M (list path) := λ w,
  let result := glob_paths (fs w) self pattern in
  (inr result, mkWorld (fs w) (trace w ++ [EvGlob self pattern result])).

(** ** [logging] *)

Definition logger_info (msg : string) : M unit := λ w,
  (inr tt, mkWorld (fs w) (trace w ++ [EvLog msg])).

(** ** [subprocess.run] *)

(** What running an external program does: its exit status, what it prints
    on the streams it inherits, and the file system it leaves behind. *)
Record proc_result : Type := mkProc {
  pr_returncode : Z;
  pr_output : string;
  pr_fs : gmap (list string) kind
}.

Record CompletedProcess : Type := mkCompleted {
  cp_args : list string;
  cp_returncode : Z;
  cp_stdout : option string;
  cp_stderr : option string
}.

(** A call [subprocess.run(args, check=...)]; [call_check = None] is a call
    without the [check] keyword. *)
Record run_call : Type := mkCall {
  call_args : list string;
  call_check : option bool
}.

Section Scripts.

(** Which executables can be started, and what each external tool does. *)
Variable installed : string → bool.
Variable tool : list string → gmap (list string) kind → proc_result.

(** [Popen(args)]: starting the child fails when the executable is missing. *)
Definition Popen (args : list string) : M unit := λ w,
  let exe := hd "" args in
  if installed exe
  then (inr tt, mkWorld (fs w) (trace w ++ [EvSpawn args (fs w)]))
  else (inl (FileNotFoundError exe), w).

(** [process.communicate()] without pipes: wait for the child; nothing is
    captured. *)
Definition communicate (args : list string) : M Z := λ w,
  let r := tool args (fs w) in
  (inr (pr_returncode r),
   mkWorld (pr_fs r) (trace w ++ [EvExit args (pr_returncode r) (pr_output r)])).

(** [subprocess.run(args, check=check)]; [check] defaults to [False]. *)
Definition subprocess_run (c : run_call) : M CompletedProcess :=
  Popen (call_args c) ;;
  retcode ← communicate (call_args c) ;
  if default false (call_check c) && negb (retcode =? 0)%Z
  then raise (CalledProcessError retcode (call_args c))
  else mret (mkCompleted (call_args c) retcode None None).

(** ** [compile_python.py] *)

Definition PROTO_DIR : path := ["proto"].
Definition COMPILED_PY_DIR : path :=
  ["backend"; "packages"; "proto"; "proto"; "compiled"].

Definition py_protoc_call (proto_file : path) : run_call :=
  {| call_args :=
       [ "python";
         "-m";
         "grpc_tools.protoc";
         "--proto_path=" +:+ path_str PROTO_DIR;
         "--python_out=" +:+ path_str COMPILED_PY_DIR;
         "--grpc_python_out=" +:+ path_str COMPILED_PY_DIR;
         "--pyi_out=" +:+ path_str COMPILED_PY_DIR;
         path_str proto_file ];
     call_check := Some false |}.

Definition protol_call (proto_files : list path) : run_call :=
  {| call_args :=
       [ "protol";
         "--create-package";
         "--in-place";
         "--python-out=" +:+ path_str COMPILED_PY_DIR;
         "protoc";
         "--proto-path=" +:+ path_str PROTO_DIR ]
       ++ (path_str <$> proto_files);
     call_check := Some false |}.

Definition py_done_msg : string :=
  "Python proto files compiled to " +:+ path_str COMPILED_PY_DIR
    +:+ " with fixed imports".

Definition compile_python : M unit :=
  Path_mkdir COMPILED_PY_DIR true true ;;
  logger_info "Compiling proto files for Python..." ;;
  proto_files ← Path_glob PROTO_DIR "*.proto" ;
  for_each proto_files (λ proto_file,
    subprocess_run (py_protoc_call proto_file) ;; mret tt) ;;
  logger_info "Fixing imports for Python..." ;;
  fixed ← Path_glob PROTO_DIR "*.proto" ;
  subprocess_run (protol_call fixed) ;;
  logger_info py_done_msg.

(** ** [compile_typescript.py] *)

Definition COMPILED_TS_DIR : path := ["packages"; "proto"; "src"; "lib"; "gen"].

Definition ts_protoc_call (proto_file : path) : run_call :=
  {| call_args :=
       [ "protoc";
         "--proto_path=" +:+ path_str PROTO_DIR;
         "--plugin=node_modules/.bin/protoc-gen-ts_proto";
         "--ts_proto_out=" +:+ path_str COMPILED_TS_DIR;
         "--ts_proto_opt=importSuffix=.js";
         path_str proto_file ];
     call_check := Some false |}.

Definition ts_done_msg : string :=
  "TypeScript proto files compiled to " +:+ path_str COMPILED_TS_DIR.

Definition compile_typescript : M unit :=
  Path_mkdir COMPILED_TS_DIR true true ;;
  logger_info "Compiling proto files for TypeScript..." ;;
  proto_files ← Path_glob PROTO_DIR "*.proto" ;
  for_each proto_files (λ proto_file,
    subprocess_run (ts_protoc_call proto_file) ;; mret tt) ;;
  logger_info ts_done_msg.

End Scripts.

(** ** Observations on a trace *)

(** Argument vectors of the child processes started, in order. *)
Definition spawned (t : list event) : list (list string) :=
  omap (λ e, match e with EvSpawn a _ => Some a | _ => None end) t.

(** Log records, in order. *)
Definition logs (t : list event) : list string :=
  omap (λ e, match e with EvLog m => Some m | _ => None end) t.

(** Results of the directory enumerations, in order. *)
Definition globs (t : list event) : list (list path) :=
  omap (λ e, match e with EvGlob _ _ r => Some r | _ => None end) t.

(** The import fixer is the only child whose executable is [protol]. *)
Definition is_fixer (args : list string) : bool :=
  bool_decide (head args = Some "protol").

Definition compiler_calls (t : list event) : list (list string) :=
  List.filter (λ a, negb (is_fixer a)) (spawned t).

Definition fixer_calls (t : list event) : list (list string) :=
  List.filter is_fixer (spawned t).

(** Children started and not yet waited for. *)
Fixpoint remove_first (a : list string) (l : list (list string)) : list (list string) :=
  match l with
  | [] => []
  | b :: l' => if decide (a = b) then l' else b :: remove_first a l'
  end.

Definition pending_step (acc : list (list string)) (e : event) : list (list string) :=
  match e with
  | EvSpawn a _ => acc ++ [a]
  | EvExit a _ _ => remove_first a acc
  | _ => acc
  end.

Definition pending (t : list event) : list (list string) := foldl pending_step [] t.

(** What the script itself did, with everything a child reports (exit
    status and output) erased. *)
Definition action (e : event) : event :=
  match e with
  | EvExit a _ _ => EvExit a 0 ""
  | _ => e
  end.

(** ** Conditions on the environment *)

(** The non-empty prefixes of a path: the directories [Path.mkdir] visits. *)
Definition prefixes (p : path) : list path := (λ n, take n p) <$> seq 1 (length p).

(** No regular file sits at [p] or at one of its ancestors. *)
Definition path_clear (fs : FS) (p : path) : bool :=
  forallb (λ q, bool_decide (fs !! q ≠ Some File)) (prefixes p).

(** The external tools remove nothing and do not change the kind of an entry. *)
Definition preserves (tool : list string → gmap (list string) kind → proc_result) : Prop :=
  ∀ args fs, fs ⊆ pr_fs (tool args fs).

(** The external tools leave the listing of the proto directory as it is. *)
Definition keeps_listing (tool : list string → gmap (list string) kind → proc_result) : Prop :=
  ∀ args fs, glob_paths (pr_fs (tool args fs)) PROTO_DIR "*.proto"
             = glob_paths fs PROTO_DIR "*.proto".

(** ** The events of a sequence of child processes run to completion *)

Fixpoint run_tools (tool : list string → gmap (list string) kind → proc_result)
    (calls : list (list string)) (fs : FS) : list event * FS :=
  match calls with
  | [] => ([], fs)
  | a :: calls' =>
      let r := tool a fs in
      let rest := run_tools tool calls' (pr_fs r) in
      (EvSpawn a fs :: EvExit a (pr_returncode r) (pr_output r) :: rest.1, rest.2)
  end.

(** The compiler command lines for a list of proto files. *)
Definition py_calls (files : list path) : list (list string) :=
  (λ f, call_args (py_protoc_call f)) <$> files.

Definition ts_calls (files : list path) : list (list string) :=
  (λ f, call_args (ts_protoc_call f)) <$> files.

(** What [compile_python.py] does after the output directory is in place,
    when every child can be started: its events, and the file system at the
    end. *)
Definition py_steps (tool : list string → gmap (list string) kind → proc_result)
    (fs1 : FS) : list event * FS :=
  let files := glob_paths fs1 PROTO_DIR "*.proto" in
  let loop := run_tools tool (py_calls files) fs1 in
  let fixed := glob_paths loop.2 PROTO_DIR "*.proto" in
  let args := call_args (protol_call fixed) in
  let r := tool args loop.2 in
  ([EvLog "Compiling proto files for Python..."; EvGlob PROTO_DIR "*.proto" files]
     ++ loop.1
     ++ [EvLog "Fixing imports for Python..."; EvGlob PROTO_DIR "*.proto" fixed;
         EvSpawn args loop.2; EvExit args (pr_returncode r) (pr_output r);
         EvLog py_done_msg],
   pr_fs r).

(** The same for [compile_typescript.py]. *)
Definition ts_steps (tool : list string → gmap (list string) kind → proc_result)
    (fs1 : FS) : list event * FS :=
  let files := glob_paths fs1 PROTO_DIR "*.proto" in
  let loop := run_tools tool (ts_calls files) fs1 in
  ([EvLog "Compiling proto files for TypeScript..."; EvGlob PROTO_DIR "*.proto" files]
     ++ loop.1 ++ [EvLog ts_done_msg],
   loop.2).

(** The proto files named on the compiler command lines: the last argument
    of each. *)
Definition compiled_files (t : list event) : list string :=
  omap last (compiler_calls t).

(** The proto files handed to the import fixer: what follows its six fixed
    arguments. *)
Definition fixed_files (t : list event) : list string :=
  concat (drop 6 <$> fixer_calls t).

(** How a call site treats the exit status: [check=False] is written out, or
    the keyword is left to its default. *)
Definition ignores_explicitly (c : run_call) : Prop := call_check c = Some false.
Definition ignores_implicitly (c : run_call) : Prop := call_check c = None.

(** ** A sample environment *)

Definition sample_fs : FS :=
  list_to_map
    [ (["proto"], Dir);
      (["proto"; "a.proto"], File);
      (["proto"; "b.proto"], File);
      (["proto"; "README.md"], File);
      (["packages"], Dir) ].

Definition all_installed : string → bool := λ _, true.

(** A tool that always fails and touches nothing. *)
Definition failing_tool : list string → gmap (list string) kind → proc_result :=
  λ _ fs, mkProc 1 "error" fs.

(** A tool that writes one generated file into the output directory of its
    target, if that file is not there yet, and succeeds. *)
Definition generating_tool : list string → gmap (list string) kind → proc_result :=
  λ args fs,
    let artifact :=
      if bool_decide (head args = Some "protoc")
      then ["packages"; "proto"; "src"; "lib"; "gen"; "a.ts"]
      else ["backend"; "packages"; "proto"; "proto"; "compiled"; "a_pb2.py"] in
    mkProc 0 ""
      match fs !! artifact with
      | None => <[artifact := File]> fs
      | Some _ => fs
      end.

(** A tool that succeeds silently and touches nothing. *)
Definition quiet_tool : list string → gmap (list string) kind → proc_result :=
  λ _ fs, mkProc 0 "" fs.

(** ** Relations between file systems and shapes of traces *)

(** [fs'] is [fs] with, at most, directories added at prefixes of [p] that
    were absent. *)
Definition adds_dirs_along (p : path) (fs fs' : FS) : Prop :=
  ∀ q, fs' !! q = fs !! q
       ∨ (fs !! q = None ∧ fs' !! q = Some Dir ∧ q ≠ [] ∧ q `prefix_of` p).

(** At no moment of the trace is more than one child running. *)
Definition one_child_at_a_time (t : list event) : Prop :=
  ∀ i, length (pending (take i t)) ≤ 1.

(** The executable of a command line. *)
Definition executable (args : list string) : string := hd "" args.

(** ** Files written by the children of a run *)

(** The scripts write no file themselves: every generated artifact is
    written by a child.  [writes args seen] lists the files that a child
    with command line [args], started in the file system [seen], creates or
    overwrites; [written writes t] lists what the children of a run wrote,
    in the order of the run. *)
Definition written (writes : list string → gmap (list string) kind → list path)
    (t : list event) : list path :=
  concat ((λ e, match e with EvSpawn args seen => writes args seen | _ => [] end) <$> t).


(** The generated file of the sample tools: one per target. *)
Definition sample_artifact (args : list string) : path :=
  if bool_decide (head args = Some "protoc")
  then ["packages"; "proto"; "src"; "lib"; "gen"; "a.ts"]
  else ["backend"; "packages"; "proto"; "proto"; "compiled"; "a_pb2.py"].

(** A tool that writes its generated file whether or not it is there
    already (a directory of that name stays), and succeeds. *)
Definition overwriting_tool : list string → gmap (list string) kind → proc_result :=
  λ args fs,
    mkProc 0 ""
      match fs !! sample_artifact args with
      | Some Dir => fs
      | _ => <[sample_artifact args := File]> fs
      end.

Definition overwriting_tool_writes : list string → gmap (list string) kind → list path :=
  λ args _, [sample_artifact args].

(** What [generating_tool] writes: its generated file, when nothing is
    there yet. *)
Definition generating_tool_writes : list string → gmap (list string) kind → list path :=
  λ args fs,
    match fs !! sample_artifact args with
    | None => [sample_artifact args]
    | Some _ => []
    end.

Global Arguments py_steps : simpl never.
Global Arguments ts_steps : simpl never.

(** * Path resolution *)

Section Resolution.

Implicit Types (fs : gmap (list string) kind) (p q cur : list string).

Lemma resolve_snoc fs rest cur c :
  resolve fs cur (rest ++ [c]) =
    match resolve fs cur rest with
    | inl e => inl e
    | inr File => inl ENOTDIR
    | inr Dir =>
        match fs !! (cur ++ rest ++ [c]) with
        | None => inl ENOENT
        | Some k => inr k
        end
    end.
Proof.
  revert cur. induction rest as [|d rest IH]; intros cur; simpl.
  - destruct (fs !! (cur ++ [c])) as [[]|]; reflexivity.
  - destruct (fs !! (cur ++ [d])) as [[]|] eqn:Hd; try reflexivity.
    + rewrite IH. rewrite <- (assoc_L (++) cur [d]). reflexivity.
    + destruct rest; reflexivity.
Qed.

Lemma stat_snoc fs q c :
  stat fs (q ++ [c]) =
    match stat fs q with
    | inl e => inl e
    | inr File => inl ENOTDIR
    | inr Dir => match fs !! (q ++ [c]) with None => inl ENOENT | Some k => inr k end
    end.
Proof. unfold stat. rewrite resolve_snoc. reflexivity. Qed.

Lemma is_dir_nil fs : is_dir fs [] = true.
Proof. reflexivity. Qed.

Lemma is_dir_snoc fs q c :
  is_dir fs (q ++ [c]) = is_dir fs q && bool_decide (fs !! (q ++ [c]) = Some Dir).
Proof.
  unfold is_dir. rewrite stat_snoc.
  destruct (stat fs q) as [e|[]]; simpl; try reflexivity.
  destruct (fs !! (q ++ [c])) as [[]|]; reflexivity.
Qed.

Lemma path_split p : p ≠ [] → ∃ c, p = parent p ++ [c].
Proof.
  unfold parent. destruct p as [|x p'] using rev_ind; [done|]. intros _.
  exists x. rewrite length_app. simpl.
  replace (length p' + 1 - 1) with (length p') by lia.
  by rewrite take_app_length.
Qed.

Lemma parent_snoc q c : parent (q ++ [c]) = q.
Proof.
  unfold parent. rewrite length_app. simpl.
  replace (length q + 1 - 1) with (length q) by lia.
  by rewrite take_app_length.
Qed.

Lemma take_S_snoc p n : n < length p → ∃ c, take (S n) p = take n p ++ [c].
Proof.
  intros Hn. destruct (lookup_lt_is_Some_2 p n Hn) as [c Hc].
  exists c. by apply take_S_r.
Qed.

(** A directory's ancestors are directories. *)
Lemma is_dir_take fs p n : is_dir fs p = true → is_dir fs (take n p) = true.
Proof.
  induction p as [|c p IH] using rev_ind; intros Hp.
  - by rewrite take_nil.
  - pose proof Hp as Hp'.
    rewrite is_dir_snoc in Hp. apply andb_true_iff in Hp as [Hq _].
    destruct (decide (n ≤ length p)) as [Hn|Hn].
    + rewrite take_app_le by done. by apply IH.
    + rewrite take_ge by (rewrite length_app; simpl; lia).
      rewrite is_dir_snoc, Hq. simpl.
      rewrite is_dir_snoc in Hp'. by apply andb_true_iff in Hp' as [_ ?].
Qed.

(** Resolution only looks at the entries on the way: it is stable under
    additions to the file system. *)
Lemma is_dir_mono fs fs' p : fs ⊆ fs' → is_dir fs p = true → is_dir fs' p = true.
Proof.
  intros Hsub. induction p as [|c p IH] using rev_ind; [done|].
  rewrite !is_dir_snoc. intros [Hq Hc%bool_decide_eq_true]%andb_true_iff.
  rewrite IH by done. simpl. apply bool_decide_eq_true.
  by eapply lookup_weaken.
Qed.

(** Resolution fails with a regular file or [ENOTDIR] only when a regular
    file sits on the way. *)
Lemma stat_blocked fs p :
  (stat fs p = inr File ∨ stat fs p = inl ENOTDIR) →
  ∃ n, 1 ≤ n ≤ length p ∧ fs !! take n p = Some File.
Proof.
  induction p as [|c p IH] using rev_ind.
  - unfold stat. simpl. intros [?|?]; discriminate.
  - rewrite stat_snoc, length_app. simpl. intros H.
    destruct (stat fs p) as [[]|[]] eqn:Hp.
    + destruct H; discriminate.
    + destruct IH as (n & Hn & Hf); [by right|].
      exists n. split; [lia|]. by rewrite take_app_le by lia.
    + destruct (fs !! (p ++ [c])) as [k|] eqn:Hc; [|destruct H; discriminate].
      destruct H as [H|H]; [|discriminate]. injection H as ->.
      exists (length p + 1). split; [lia|].
      rewrite take_ge by (rewrite length_app; simpl; lia). done.
    + destruct IH as (n & Hn & Hf); [by left|].
      exists n. split; [lia|]. by rewrite take_app_le by lia.
Qed.

Lemma path_clear_spec fs p :
  path_clear fs p = true ↔ ∀ n, 1 ≤ n ≤ length p → fs !! take n p ≠ Some File.
Proof.
  unfold path_clear, prefixes. rewrite forallb_forall. split.
  - intros H n Hn. specialize (H (take n p)).
    eapply bool_decide_eq_true_1, H. apply in_map_iff. exists n. split; [done|].
    apply in_seq. lia.
  - intros H q [n [<- Hn%in_seq]]%in_map_iff.
    apply bool_decide_eq_true_2, H. lia.
Qed.

End Resolution.

(** * Directory creation *)

Section Mkdir.

Implicit Types (p q : list string) (w : World).

Lemma os_mkdir_snoc q c w :
  os_mkdir (q ++ [c]) w =
    match stat (fs w) q with
    | inl ENOENT => (inl (FileNotFoundError (path_str (q ++ [c]))), w)
    | inl ENOTDIR | inr File => (inl (NotADirectoryError (path_str (q ++ [c]))), w)
    | inr Dir =>
        match fs w !! (q ++ [c]) with
        | Some _ => (inl (FileExistsError (path_str (q ++ [c]))), w)
        | None => (inr tt, mkWorld (<[q ++ [c] := Dir]> (fs w)) (trace w))
        end
    end.
Proof.
  unfold os_mkdir. rewrite parent_snoc.
  destruct (q ++ [c]) eqn:E; [by destruct q|]. reflexivity.
Qed.

(** [os.mkdir] on an existing directory fails with [FileExistsError] and
    changes nothing. *)
Lemma os_mkdir_exists p w :
  is_dir (fs w) p = true →
  os_mkdir p w = (inl (FileExistsError (path_str p)), w).
Proof.
  intros Hd. destruct (decide (p = [])) as [->|Hne]; [done|].
  destruct (path_split p Hne) as [c Hp]. rewrite Hp in Hd |- *.
  rewrite is_dir_snoc in Hd. apply andb_true_iff in Hd as [Hq Hc%bool_decide_eq_true_1].
  rewrite os_mkdir_snoc. unfold is_dir in Hq.
  destruct (stat (fs w) (parent p)) as [|[]]; try discriminate.
  by rewrite Hc.
Qed.

(** [os.mkdir] below an existing directory, with no regular file in the
    way: either the directory is created, or it was there already. *)
Lemma os_mkdir_leaf q c w :
  is_dir (fs w) q = true →
  fs w !! (q ++ [c]) ≠ Some File →
  (fs w !! (q ++ [c]) = None ∧
   os_mkdir (q ++ [c]) w = (inr tt, mkWorld (<[q ++ [c] := Dir]> (fs w)) (trace w)))
  ∨ (is_dir (fs w) (q ++ [c]) = true ∧
     os_mkdir (q ++ [c]) w = (inl (FileExistsError (path_str (q ++ [c]))), w)).
Proof.
  intros Hq Hc. destruct (fs w !! (q ++ [c])) as [[]|] eqn:E; [|done|].
  - right. assert (is_dir (fs w) (q ++ [c]) = true) as Hd.
    { rewrite is_dir_snoc, Hq. simpl. by apply bool_decide_eq_true_2. }
    split; [done|]. by apply os_mkdir_exists.
  - left. split; [done|]. rewrite os_mkdir_snoc, E.
    unfold is_dir in Hq. by destruct (stat (fs w) q) as [|[]].
Qed.

Lemma Path_mkdir_prefix_unfold n p parents exist_ok :
  Path_mkdir_prefix n p parents exist_ok =
    try_except (os_mkdir (take n p)) (λ e,
      if is_FileNotFoundError e then
        match n with
        | O => raise e
        | S k =>
            if parents then
              Path_mkdir_prefix k p true true ;;
              try_except (os_mkdir (take n p)) (λ e',
                if is_FileNotFoundError e' then raise e'
                else mkdir_except_OSError (take n p) exist_ok e')
            else raise e
        end
      else mkdir_except_OSError (take n p) exist_ok e).
Proof. destruct n; reflexivity. Qed.

(** [exist_ok=True]: on a directory that exists, [Path.mkdir] succeeds and
    leaves the world as it is. *)
Lemma Path_mkdir_prefix_exists n p parents w :
  is_dir (fs w) (take n p) = true →
  Path_mkdir_prefix n p parents true w = (inr tt, w).
Proof.
  intros Hd. rewrite Path_mkdir_prefix_unfold. unfold try_except.
  rewrite (os_mkdir_exists _ _ Hd). simpl.
  unfold mkdir_except_OSError. by rewrite Hd.
Qed.

Lemma Path_mkdir_exists p parents w :
  is_dir (fs w) p = true → Path_mkdir p parents true w = (inr tt, w).
Proof.
  intros Hd. apply Path_mkdir_prefix_exists. by rewrite firstn_all.
Qed.

(** Whatever [Path.mkdir] does, it removes nothing and emits no event. *)
Lemma os_mkdir_grows p w :
  fs w ⊆ fs (os_mkdir p w).2 ∧ trace (os_mkdir p w).2 = trace w.
Proof.
  unfold os_mkdir. destruct p as [|c p']; [done|].
  destruct (stat (fs w) (parent (c :: p'))) as [[]|[]]; try done.
  destruct (_ !! _) eqn:E; simpl; [done|].
  split; [|done]. by apply insert_subseteq.
Qed.

Lemma Path_mkdir_prefix_grows n p parents exist_ok w :
  fs w ⊆ fs (Path_mkdir_prefix n p parents exist_ok w).2
  ∧ trace (Path_mkdir_prefix n p parents exist_ok w).2 = trace w.
Proof.
  revert parents exist_ok w. induction n as [|k IH]; intros parents exist_ok w.
  - rewrite Path_mkdir_prefix_unfold. unfold try_except.
    pose proof (os_mkdir_grows (take 0 p) w) as [Hs Ht].
    destruct (os_mkdir (take 0 p) w) as [[e|[]] w1]; simpl in *; [|done].
    destruct (is_FileNotFoundError e); [done|].
    unfold mkdir_except_OSError. by destruct (_ && _).
  - rewrite Path_mkdir_prefix_unfold. unfold try_except.
    pose proof (os_mkdir_grows (take (S k) p) w) as [Hs Ht].
    destruct (os_mkdir (take (S k) p) w) as [[e|[]] w1]; simpl in *; [|done].
    destruct (is_FileNotFoundError e).
    + destruct parents; [|done]. unfold mbind, M_bind.
      pose proof (IH true true w1) as [Hs1 Ht1].
      destruct (Path_mkdir_prefix k p true true w1) as [[e1|[]] w2]; simpl in *.
      { split; [by etrans|congruence]. }
      pose proof (os_mkdir_grows (take (S k) p) w2) as [Hs2 Ht2].
      destruct (os_mkdir (take (S k) p) w2) as [[e2|[]] w3]; simpl in *.
      * assert (fs w ⊆ fs w3 ∧ trace w3 = trace w) as [??].
        { split; [by do 2 etrans|congruence]. }
        destruct (is_FileNotFoundError e2); [done|].
        unfold mkdir_except_OSError. by destruct (_ && _).
      * split; [by do 2 etrans|congruence].
    + unfold mkdir_except_OSError. by destruct (_ && _).
Qed.

(** With no regular file in the way, [Path.mkdir(parents=True,
    exist_ok=True)] succeeds and the directory exists afterwards. *)
Lemma Path_mkdir_prefix_ok n p w :
  n ≤ length p →
  path_clear (fs w) p = true →
  (Path_mkdir_prefix n p true true w).1 = inr tt
  ∧ is_dir (fs (Path_mkdir_prefix n p true true w).2) (take n p) = true
  ∧ path_clear (fs (Path_mkdir_prefix n p true true w).2) p = true.
Proof.
  revert w. induction n as [|k IH]; intros w Hn Hclear.
  { rewrite Path_mkdir_prefix_exists by done. done. }
  assert (∀ w', path_clear (fs w') p = true → is_dir (fs w') (take k p) = true →
    ∀ h, (∀ e w'', is_FileNotFoundError e = false →
              h e w'' = mkdir_except_OSError (take (S k) p) true e w'') →
    let r := try_except (os_mkdir (take (S k) p)) h w' in
    r.1 = inr tt ∧ is_dir (fs r.2) (take (S k) p) = true
    ∧ path_clear (fs r.2) p = true) as Hleaf.
  { intros w' Hc' Hq h Hh. simpl.
    destruct (take_S_snoc p k) as [c Hc]; [lia|]. rewrite Hc.
    assert (fs w' !! (take k p ++ [c]) ≠ Some File) as Hnf.
    { rewrite <- Hc. eapply path_clear_spec; [done|lia]. }
    unfold try_except.
    destruct (os_mkdir_leaf _ c w' Hq Hnf) as [[Hnone ->]|[Hd ->]]; simpl.
    - split; [done|]. split.
      + rewrite is_dir_snoc. erewrite is_dir_mono; [|by apply insert_subseteq|done].
        simpl. apply bool_decide_eq_true_2. by rewrite lookup_insert_eq.
      + apply path_clear_spec. intros m Hm.
        rewrite lookup_insert. case_decide; [done|].
        by eapply path_clear_spec.
    - rewrite Hh by done. unfold mkdir_except_OSError. rewrite Hc, Hd. done. }
  destruct (is_dir (fs w) (take k p)) eqn:Hq.
  { rewrite Path_mkdir_prefix_unfold.
    apply (Hleaf w Hclear Hq). intros e w'' ->. done. }
  (* the parent is missing: [os.mkdir] raises [FileNotFoundError] *)
  destruct (take_S_snoc p k) as [c Hc]; [lia|].
  assert (stat (fs w) (take k p) = inl ENOENT) as Hst.
  { unfold is_dir in Hq.
    destruct (stat (fs w) (take k p)) as [[]|[]] eqn:Hst; try done; exfalso.
    - destruct (stat_blocked (fs w) (take k p)) as (m & Hm & Hf); [by right|].
      rewrite length_take in Hm. rewrite take_take in Hf.
      replace (m `min` k) with m in Hf by lia.
      eapply path_clear_spec; [exact Hclear| |exact Hf]. lia.
    - destruct (stat_blocked (fs w) (take k p)) as (m & Hm & Hf); [by left|].
      rewrite length_take in Hm. rewrite take_take in Hf.
      replace (m `min` k) with m in Hf by lia.
      eapply path_clear_spec; [exact Hclear| |exact Hf]. lia. }
  destruct (IH w) as (Hr & Hd & Hc'); [lia|done|].
  destruct (Path_mkdir_prefix k p true true w) as [r1 w1] eqn:E1.
  simpl in Hr, Hd, Hc'. subst r1.
  assert (Path_mkdir_prefix (S k) p true true w =
          try_except (os_mkdir (take (S k) p)) (λ e',
            if is_FileNotFoundError e' then raise e'
            else mkdir_except_OSError (take (S k) p) true e') w1) as ->.
  { rewrite Path_mkdir_prefix_unfold. unfold try_except at 1.
    rewrite Hc at 1. rewrite os_mkdir_snoc, Hst. simpl.
    unfold mbind, M_bind. by rewrite E1. }
  apply (Hleaf w1 Hc' Hd). intros e w'' ->. done.
Qed.

Lemma Path_mkdir_ok p w :
  path_clear (fs w) p = true →
  ∃ fs1, Path_mkdir p true true w = (inr tt, mkWorld fs1 (trace w))
         ∧ fs w ⊆ fs1 ∧ is_dir fs1 p = true.
Proof.
  intros Hclear. unfold Path_mkdir.
  destruct (Path_mkdir_prefix_ok (length p) p w) as (Hr & Hd & _); [done..|].
  destruct (Path_mkdir_prefix_grows (length p) p true true w) as [Hs Ht].
  destruct (Path_mkdir_prefix (length p) p true true w) as [r [fs1 t1]].
  simpl in *. subst. exists fs1. by rewrite firstn_all in Hd.
Qed.

End Mkdir.

(** * Child processes *)

Section Processes.

Variable installed : string → bool.
Variable tool : list string → gmap (list string) kind → proc_result.

Implicit Types (w : World) (c : run_call).

(** Without [check=True] the exit status never raises. *)
Lemma subprocess_run_ok c w :
  installed (hd "" (call_args c)) = true →
  call_check c ≠ Some true →
  subprocess_run installed tool c w =
    let r := tool (call_args c) (fs w) in
    (inr (mkCompleted (call_args c) (pr_returncode r) None None),
     mkWorld (pr_fs r)
       (trace w ++ [EvSpawn (call_args c) (fs w);
                    EvExit (call_args c) (pr_returncode r) (pr_output r)])).
Proof.
  intros Hi Hc. unfold subprocess_run, mbind, M_bind, Popen, communicate.
  rewrite Hi. simpl.
  assert (default false (call_check c) = false) as ->.
  { destruct (call_check c) as [[]|]; done. }
  simpl. unfold mret, M_ret. by rewrite <- (assoc_L (++)).
Qed.

(** A missing executable raises before any child exists. *)
Lemma subprocess_run_missing c w :
  installed (hd "" (call_args c)) = false →
  subprocess_run installed tool c w =
    (inl (FileNotFoundError (hd "" (call_args c))), w).
Proof.
  intros Hi. unfold subprocess_run, mbind, M_bind, Popen. by rewrite Hi.
Qed.

Lemma for_each_run_ok (mk : path → run_call) files w :
  (∀ f, f ∈ files → installed (hd "" (call_args (mk f))) = true) →
  (∀ f, call_check (mk f) ≠ Some true) →
  for_each files (λ f, subprocess_run installed tool (mk f) ;; mret tt) w =
    let loop := run_tools tool ((λ f, call_args (mk f)) <$> files) (fs w) in
    (inr tt, mkWorld loop.2 (trace w ++ loop.1)).
Proof.
  intros Hi Hc. revert w. induction files as [|f files IH]; intros w; simpl.
  - unfold mret, M_ret. rewrite app_nil_r. by destruct w.
  - unfold mbind, M_bind at 1. unfold mbind, M_bind at 1.
    rewrite subprocess_run_ok; [|apply Hi; left|done]. simpl.
    rewrite IH by (intros; apply Hi; by right). simpl.
    by rewrite <- (assoc_L (++)).
Qed.

Lemma for_each_run_missing (mk : path → run_call) f files w :
  installed (hd "" (call_args (mk f))) = false →
  for_each (f :: files) (λ f, subprocess_run installed tool (mk f) ;; mret tt) w =
    (inl (FileNotFoundError (hd "" (call_args (mk f)))), w).
Proof.
  intros Hi. simpl. unfold mbind, M_bind at 1. unfold mbind, M_bind at 1.
  by rewrite subprocess_run_missing.
Qed.

End Processes.

(** * The two scripts, step by step *)

(** Splits a membership in a list built from [::] and [++] into its cases. *)
Ltac elem_cases H :=
  repeat first
    [ apply elem_of_nil in H; destruct H
    | apply elem_of_app in H as [H|H]
    | apply elem_of_cons in H as [H|H] ].

Section Runs.

Variable installed : string → bool.
Variable tool : list string → gmap (list string) kind → proc_result.

Implicit Types (w : World).

Lemma bind_inr {A B : Type} (m : M A) (k : A → M B) w a w' :
  m w = (inr a, w') → (m ≫= k) w = k a w'.
Proof. intros H. unfold mbind, M_bind. by rewrite H. Qed.

Lemma bind_inl {A B : Type} (m : M A) (k : A → M B) w e w' :
  m w = (inl e, w') → (m ≫= k) w = (inl e, w').
Proof. intros H. unfold mbind, M_bind. by rewrite H. Qed.

Lemma run_tools_app calls1 calls2 fs0 :
  run_tools tool (calls1 ++ calls2) fs0 =
    let r1 := run_tools tool calls1 fs0 in
    let r2 := run_tools tool calls2 r1.2 in
    (r1.1 ++ r2.1, r2.2).
Proof.
  revert fs0. induction calls1 as [|a calls1 IH]; intros fs0; simpl.
  - by destruct (run_tools tool calls2 fs0).
  - by rewrite IH.
Qed.

(** ** [compile_typescript.py] *)

Lemma compile_typescript_mkdir_error w0 e w1 :
  Path_mkdir COMPILED_TS_DIR true true w0 = (inl e, w1) →
  compile_typescript installed tool w0 = (inl e, w1).
Proof. intros H. unfold compile_typescript. by erewrite bind_inl. Qed.

Lemma compile_typescript_complete w0 w1 :
  Path_mkdir COMPILED_TS_DIR true true w0 = (inr tt, w1) →
  (glob_paths (fs w1) PROTO_DIR "*.proto" = [] ∨ installed "protoc" = true) →
  compile_typescript installed tool w0 =
    (inr tt, mkWorld (ts_steps tool (fs w1)).2 (trace w1 ++ (ts_steps tool (fs w1)).1)).
Proof.
  intros Hmk Hi. unfold compile_typescript.
  erewrite bind_inr by exact Hmk.
  erewrite bind_inr by reflexivity.
  erewrite bind_inr by reflexivity.
  erewrite bind_inr.
  2:{ apply for_each_run_ok; [|done].
      intros f Hf. simpl in Hf. destruct Hi as [Hi|Hi]; [|done].
      rewrite Hi in Hf. by apply elem_of_nil in Hf. }
  unfold logger_info, ts_steps, ts_calls. simpl.
  by rewrite <- !(assoc_L (++)).
Qed.

Lemma compile_typescript_missing w0 w1 f files :
  Path_mkdir COMPILED_TS_DIR true true w0 = (inr tt, w1) →
  glob_paths (fs w1) PROTO_DIR "*.proto" = f :: files →
  installed "protoc" = false →
  compile_typescript installed tool w0 =
    (inl (FileNotFoundError "protoc"),
     mkWorld (fs w1)
       (trace w1 ++ [EvLog "Compiling proto files for TypeScript...";
                     EvGlob PROTO_DIR "*.proto" (f :: files)])).
Proof.
  intros Hmk Hg Hi. unfold compile_typescript.
  erewrite bind_inr by exact Hmk.
  erewrite bind_inr by reflexivity.
  erewrite bind_inr by reflexivity.
  erewrite bind_inl.
  2:{ simpl. rewrite Hg. by apply for_each_run_missing. }
  simpl. by rewrite <- (assoc_L (++)).
Qed.

(** Every run that gets past the directory step ends in the file system
    left by the children it ran, and starts no other child. *)
Lemma compile_typescript_run w0 w1 :
  Path_mkdir COMPILED_TS_DIR true true w0 = (inr tt, w1) →
  ∃ t calls,
    (compile_typescript installed tool w0).2 =
      mkWorld (run_tools tool calls (fs w1)).2 (trace w1 ++ t)
    ∧ ∀ a seen, EvSpawn a seen ∈ t →
                EvSpawn a seen ∈ (run_tools tool calls (fs w1)).1.
Proof.
  intros Hmk.
  assert (glob_paths (fs w1) PROTO_DIR "*.proto" = [] ∨ installed "protoc" = true
          ∨ ∃ f files, glob_paths (fs w1) PROTO_DIR "*.proto" = f :: files
                       ∧ installed "protoc" = false) as [Hi|[Hi|(f & files & Hg & Hi)]].
  { destruct (glob_paths _ _ _); [by left|].
    destruct (installed "protoc"); eauto 6. }
  3:{ rewrite (compile_typescript_missing w0 w1 f files) by auto.
      eexists _, []. split; [reflexivity|].
      intros a seen Hin. elem_cases Hin; done. }
  all: rewrite (compile_typescript_complete w0 w1) by auto.
  all: eexists _, (ts_calls _); (split; [reflexivity|]).
  all: intros a seen Hin; unfold ts_steps in Hin; cbn [fst] in Hin.
  all: elem_cases Hin; done.
Qed.

(** ** [compile_python.py] *)

Lemma compile_python_mkdir_error w0 e w1 :
  Path_mkdir COMPILED_PY_DIR true true w0 = (inl e, w1) →
  compile_python installed tool w0 = (inl e, w1).
Proof. intros H. unfold compile_python. by erewrite bind_inl. Qed.

Lemma compile_python_complete w0 w1 :
  Path_mkdir COMPILED_PY_DIR true true w0 = (inr tt, w1) →
  (glob_paths (fs w1) PROTO_DIR "*.proto" = [] ∨ installed "python" = true) →
  installed "protol" = true →
  compile_python installed tool w0 =
    (inr tt, mkWorld (py_steps tool (fs w1)).2 (trace w1 ++ (py_steps tool (fs w1)).1)).
Proof.
  intros Hmk Hi Hl. unfold compile_python.
  erewrite bind_inr by exact Hmk.
  erewrite bind_inr by reflexivity.
  erewrite bind_inr by reflexivity.
  erewrite bind_inr.
  2:{ apply for_each_run_ok; [|done].
      intros f Hf. simpl in Hf. destruct Hi as [Hi|Hi]; [|done].
      rewrite Hi in Hf. by apply elem_of_nil in Hf. }
  erewrite bind_inr by reflexivity.
  erewrite bind_inr by reflexivity.
  erewrite bind_inr by (by apply subprocess_run_ok).
  unfold logger_info, py_steps, py_calls. simpl.
  by rewrite <- !(assoc_L (++)).
Qed.

Lemma compile_python_missing_python w0 w1 f files :
  Path_mkdir COMPILED_PY_DIR true true w0 = (inr tt, w1) →
  glob_paths (fs w1) PROTO_DIR "*.proto" = f :: files →
  installed "python" = false →
  compile_python installed tool w0 =
    (inl (FileNotFoundError "python"),
     mkWorld (fs w1)
       (trace w1 ++ [EvLog "Compiling proto files for Python...";
                     EvGlob PROTO_DIR "*.proto" (f :: files)])).
Proof.
  intros Hmk Hg Hi. unfold compile_python.
  erewrite bind_inr by exact Hmk.
  erewrite bind_inr by reflexivity.
  erewrite bind_inr by reflexivity.
  erewrite bind_inl.
  2:{ simpl. rewrite Hg. by apply for_each_run_missing. }
  simpl. by rewrite <- (assoc_L (++)).
Qed.

Lemma compile_python_missing_protol w0 w1 :
  Path_mkdir COMPILED_PY_DIR true true w0 = (inr tt, w1) →
  (glob_paths (fs w1) PROTO_DIR "*.proto" = [] ∨ installed "python" = true) →
  installed "protol" = false →
  let files := glob_paths (fs w1) PROTO_DIR "*.proto" in
  let loop := run_tools tool (py_calls files) (fs w1) in
  compile_python installed tool w0 =
    (inl (FileNotFoundError "protol"),
     mkWorld loop.2
       (trace w1 ++ [EvLog "Compiling proto files for Python...";
                     EvGlob PROTO_DIR "*.proto" files]
                 ++ loop.1
                 ++ [EvLog "Fixing imports for Python...";
                     EvGlob PROTO_DIR "*.proto"
                       (glob_paths loop.2 PROTO_DIR "*.proto")])).
Proof.
  intros Hmk Hi Hl. unfold compile_python.
  erewrite bind_inr by exact Hmk.
  erewrite bind_inr by reflexivity.
  erewrite bind_inr by reflexivity.
  erewrite bind_inr.
  2:{ apply for_each_run_ok; [|done].
      intros f Hf. simpl in Hf. destruct Hi as [Hi|Hi]; [|done].
      rewrite Hi in Hf. by apply elem_of_nil in Hf. }
  erewrite bind_inr by reflexivity.
  erewrite bind_inr by reflexivity.
  erewrite bind_inl by (by apply subprocess_run_missing).
  unfold py_calls. simpl. by rewrite <- !(assoc_L (++)).
Qed.

Lemma compile_python_run w0 w1 :
  Path_mkdir COMPILED_PY_DIR true true w0 = (inr tt, w1) →
  ∃ t calls,
    (compile_python installed tool w0).2 =
      mkWorld (run_tools tool calls (fs w1)).2 (trace w1 ++ t)
    ∧ ∀ a seen, EvSpawn a seen ∈ t →
                EvSpawn a seen ∈ (run_tools tool calls (fs w1)).1.
Proof.
  intros Hmk.
  assert (glob_paths (fs w1) PROTO_DIR "*.proto" = [] ∨ installed "python" = true
          ∨ ∃ f files, glob_paths (fs w1) PROTO_DIR "*.proto" = f :: files
                       ∧ installed "python" = false) as [Hi|[Hi|(f & files & Hg & Hi)]].
  { destruct (glob_paths _ _ _); [by left|].
    destruct (installed "python"); eauto 6. }
  3:{ rewrite (compile_python_missing_python w0 w1 f files) by auto.
      eexists _, []. split; [reflexivity|].
      intros a seen Hin. elem_cases Hin; done. }
  all: destruct (installed "protol") eqn:Hl.
  all: first [ rewrite (compile_python_complete w0 w1) by auto;
               eexists _, (py_calls _ ++ [_]); split;
               [rewrite run_tools_app; reflexivity|];
               intros a seen Hin; unfold py_steps in Hin; cbn [fst] in Hin;
               rewrite run_tools_app; cbn [fst snd run_tools];
               elem_cases Hin; try done;
               [ apply elem_of_app; by left
               | apply elem_of_app; right; rewrite Hin; apply list_elem_of_here ]
             | rewrite (compile_python_missing_protol w0 w1) by auto;
               eexists _, (py_calls _); split; [reflexivity|];
               intros a seen Hin; elem_cases Hin; done ].
Qed.

End Runs.

(** * Reading traces *)

Section Traces.

Variable tool : list string → gmap (list string) kind → proc_result.

Implicit Types (t : list event) (calls : list (list string)).

Lemma spawned_app t1 t2 : spawned (t1 ++ t2) = spawned t1 ++ spawned t2.
Proof. apply omap_app. Qed.

Lemma logs_app t1 t2 : logs (t1 ++ t2) = logs t1 ++ logs t2.
Proof. apply omap_app. Qed.

Lemma globs_app t1 t2 : globs (t1 ++ t2) = globs t1 ++ globs t2.
Proof. apply omap_app. Qed.

Lemma pending_app t1 t2 : pending (t1 ++ t2) = foldl pending_step (pending t1) t2.
Proof. apply foldl_app. Qed.

Lemma spawned_run_tools calls fs0 : spawned (run_tools tool calls fs0).1 = calls.
Proof.
  revert fs0. induction calls as [|a calls IH]; intros fs0; [done|].
  simpl. unfold spawned in *. simpl. by rewrite IH.
Qed.

Lemma logs_run_tools calls fs0 : logs (run_tools tool calls fs0).1 = [].
Proof.
  revert fs0. induction calls as [|a calls IH]; intros fs0; [done|].
  simpl. unfold logs in *. simpl. by rewrite IH.
Qed.

Lemma globs_run_tools calls fs0 : globs (run_tools tool calls fs0).1 = [].
Proof.
  revert fs0. induction calls as [|a calls IH]; intros fs0; [done|].
  simpl. unfold globs in *. simpl. by rewrite IH.
Qed.

(** Each child is waited for before the next one starts. *)
Lemma pending_run_tools calls fs0 :
  foldl pending_step [] (run_tools tool calls fs0).1 = [].
Proof.
  revert fs0. induction calls as [|a calls IH]; intros fs0; [done|].
  simpl. rewrite decide_True by done. apply IH.
Qed.

Lemma exits_run_tools calls fs0 a :
  a ∈ calls → ∃ rc out, EvExit a rc out ∈ (run_tools tool calls fs0).1.
Proof.
  revert fs0. induction calls as [|b calls IH]; intros fs0 Ha.
  - by apply elem_of_nil in Ha.
  - apply elem_of_cons in Ha as [->|Ha]; simpl.
    + eexists _, _. apply list_elem_of_further, list_elem_of_here.
    + destruct (IH (pr_fs (tool b fs0)) Ha) as (rc & out & Hin).
      exists rc, out. by do 2 apply list_elem_of_further.
Qed.

(** Every event of a batch of children is a start or an exit of one of them. *)
Lemma events_run_tools calls fs0 e :
  e ∈ (run_tools tool calls fs0).1 →
  (∃ a seen, a ∈ calls ∧ e = EvSpawn a seen)
  ∨ (∃ a rc out, a ∈ calls ∧ e = EvExit a rc out).
Proof.
  revert fs0. induction calls as [|b calls IH]; intros fs0 He; simpl in He.
  - by apply elem_of_nil in He.
  - apply elem_of_cons in He as [->|He].
    { left. eexists _, _. split; [left|done]. }
    apply elem_of_cons in He as [->|He].
    { right. eexists _, _, _. split; [left|done]. }
    destruct (IH _ He) as [(a & seen & ? & ->)|(a & rc & out & ? & ->)].
    + left. eexists _, _. split; [by right|done].
    + right. eexists _, _, _. split; [by right|done].
Qed.

(** When the tools remove nothing, nothing is ever missing: each child
    starts in an extension of the initial file system, and so is the
    file system at the end. *)
Lemma run_tools_preserves calls fs0 :
  preserves tool →
  fs0 ⊆ (run_tools tool calls fs0).2
  ∧ ∀ a seen, EvSpawn a seen ∈ (run_tools tool calls fs0).1 → fs0 ⊆ seen.
Proof.
  intros Hp. revert fs0. induction calls as [|b calls IH]; intros fs0; simpl.
  - split; [done|]. intros a seen Hin. by apply elem_of_nil in Hin.
  - destruct (IH (pr_fs (tool b fs0))) as [IH1 IH2]. split.
    + etrans; [apply Hp|apply IH1].
    + intros a seen Hin. apply elem_of_cons in Hin as [Heq|Hin].
      { by injection Heq as -> ->. }
      apply elem_of_cons in Hin as [Heq|Hin]; [done|].
      etrans; [apply Hp|by eapply IH2].
Qed.

Lemma py_calls_not_fixer files :
  List.filter (λ a, negb (is_fixer a)) (py_calls files) = py_calls files
  ∧ List.filter is_fixer (py_calls files) = [].
Proof.
  induction files as [|f files [IH1 IH2]]; [done|].
  split; simpl; [by rewrite IH1|done].
Qed.

Lemma ts_calls_not_fixer files :
  List.filter (λ a, negb (is_fixer a)) (ts_calls files) = ts_calls files
  ∧ List.filter is_fixer (ts_calls files) = [].
Proof.
  induction files as [|f files [IH1 IH2]]; [done|].
  split; simpl; [by rewrite IH1|done].
Qed.

(** ** The events of a complete Python run *)

Lemma py_steps_spawned fs1 :
  let files := glob_paths fs1 PROTO_DIR "*.proto" in
  let fixed := glob_paths (run_tools tool (py_calls files) fs1).2 PROTO_DIR "*.proto" in
  spawned (py_steps tool fs1).1 = py_calls files ++ [call_args (protol_call fixed)].
Proof.
  unfold py_steps. simpl. rewrite !spawned_app, spawned_run_tools. done.
Qed.

Lemma py_steps_compiler_calls fs1 :
  compiler_calls (py_steps tool fs1).1 = py_calls (glob_paths fs1 PROTO_DIR "*.proto").
Proof.
  unfold compiler_calls. rewrite py_steps_spawned. simpl.
  rewrite List.filter_app. rewrite (proj1 (py_calls_not_fixer _)).
  simpl. by rewrite app_nil_r.
Qed.

Lemma py_steps_fixer_calls fs1 :
  let files := glob_paths fs1 PROTO_DIR "*.proto" in
  let fixed := glob_paths (run_tools tool (py_calls files) fs1).2 PROTO_DIR "*.proto" in
  fixer_calls (py_steps tool fs1).1 = [call_args (protol_call fixed)].
Proof.
  unfold fixer_calls. rewrite py_steps_spawned. simpl.
  rewrite List.filter_app. rewrite (proj2 (py_calls_not_fixer _)). done.
Qed.

Lemma py_steps_logs fs1 :
  logs (py_steps tool fs1).1 =
    ["Compiling proto files for Python..."; "Fixing imports for Python..."; py_done_msg].
Proof.
  unfold py_steps. simpl. rewrite !logs_app, logs_run_tools. done.
Qed.

Lemma py_steps_globs fs1 :
  let files := glob_paths fs1 PROTO_DIR "*.proto" in
  let fixed := glob_paths (run_tools tool (py_calls files) fs1).2 PROTO_DIR "*.proto" in
  globs (py_steps tool fs1).1 = [files; fixed].
Proof.
  unfold py_steps. simpl. rewrite !globs_app, globs_run_tools. done.
Qed.

(** ** The events of a complete TypeScript run *)

Lemma ts_steps_spawned fs1 :
  spawned (ts_steps tool fs1).1 = ts_calls (glob_paths fs1 PROTO_DIR "*.proto").
Proof.
  unfold ts_steps. simpl. rewrite !spawned_app, spawned_run_tools. simpl.
  by rewrite app_nil_r.
Qed.

Lemma ts_steps_compiler_calls fs1 :
  compiler_calls (ts_steps tool fs1).1 = ts_calls (glob_paths fs1 PROTO_DIR "*.proto").
Proof.
  unfold compiler_calls. rewrite ts_steps_spawned.
  apply ts_calls_not_fixer.
Qed.

Lemma ts_steps_logs fs1 :
  logs (ts_steps tool fs1).1 = ["Compiling proto files for TypeScript..."; ts_done_msg].
Proof.
  unfold ts_steps. simpl. rewrite !logs_app, logs_run_tools. done.
Qed.

Lemma ts_steps_globs fs1 :
  globs (ts_steps tool fs1).1 = [glob_paths fs1 PROTO_DIR "*.proto"].
Proof.
  unfold ts_steps. simpl. rewrite !globs_app, globs_run_tools. done.
Qed.

End Traces.

(** * A successful [Path.mkdir] leaves a directory *)

Section MkdirSuccess.

Implicit Types (p q : list string) (w : World).

Lemma os_mkdir_success p w w' :
  os_mkdir p w = (inr tt, w') → is_dir (fs w') p = true.
Proof.
  destruct (decide (p = [])) as [->|Hne]; [done|].
  destruct (path_split p Hne) as [c Hp]. rewrite Hp.
  rewrite os_mkdir_snoc.
  destruct (stat (fs w) (parent p)) as [[]|[]] eqn:Hst; try done.
  destruct (fs w !! (parent p ++ [c])) eqn:Hc; [done|].
  intros [= <-]. simpl. rewrite is_dir_snoc.
  apply andb_true_iff. split.
  - eapply is_dir_mono; [by apply insert_subseteq|]. unfold is_dir. by rewrite Hst.
  - apply bool_decide_eq_true_2. by rewrite lookup_insert_eq.
Qed.

Lemma mkdir_except_OSError_success p exist_ok e w w' :
  mkdir_except_OSError p exist_ok e w = (inr tt, w') → is_dir (fs w') p = true.
Proof.
  unfold mkdir_except_OSError.
  destruct exist_ok; simpl; [|done].
  destruct (is_dir (fs w) p) eqn:Hd; [|done]. by intros [= <-].
Qed.

Lemma Path_mkdir_prefix_success n p parents exist_ok w w' :
  Path_mkdir_prefix n p parents exist_ok w = (inr tt, w') →
  is_dir (fs w') (take n p) = true.
Proof.
  rewrite Path_mkdir_prefix_unfold. unfold try_except at 1.
  destruct (os_mkdir (take n p) w) as [[e|[]] w1] eqn:E1.
  2:{ intros [= <-]. by eapply os_mkdir_success. }
  destruct (is_FileNotFoundError e).
  - destruct n as [|k]; [done|]. destruct parents; [|done].
    unfold mbind, M_bind.
    destruct (Path_mkdir_prefix k p true true w1) as [[e2|[]] w2]; [done|].
    unfold try_except.
    destruct (os_mkdir (take (S k) p) w2) as [[e3|[]] w3] eqn:E3.
    + destruct (is_FileNotFoundError e3); [done|].
      apply mkdir_except_OSError_success.
    + intros [= <-]. by eapply os_mkdir_success.
  - apply mkdir_except_OSError_success.
Qed.

Lemma Path_mkdir_success p parents exist_ok w w' :
  Path_mkdir p parents exist_ok w = (inr tt, w') →
  is_dir (fs w') p = true ∧ fs w ⊆ fs w' ∧ trace w' = trace w.
Proof.
  intros H. unfold Path_mkdir in H.
  pose proof (Path_mkdir_prefix_grows (length p) p parents exist_ok w) as [Hs Ht].
  rewrite H in Hs, Ht. simpl in *. split; [|done].
  apply Path_mkdir_prefix_success in H. by rewrite firstn_all in H.
Qed.

Lemma Path_mkdir_failure p parents exist_ok w e w' :
  Path_mkdir p parents exist_ok w = (inl e, w') →
  fs w ⊆ fs w' ∧ trace w' = trace w.
Proof.
  intros H. unfold Path_mkdir in H.
  pose proof (Path_mkdir_prefix_grows (length p) p parents exist_ok w) as [Hs Ht].
  by rewrite H in Hs, Ht.
Qed.

End MkdirSuccess.

(** * Properties of the two pipelines *)

(** C1. A non-zero exit status of a compiler invocation is not fatal.
    Whatever exit statuses the external tools return (all of them may be
    failures), as long as the tools can be started and the output directory
    can be created, each pipeline runs to its end without an exception,
    starts one compiler per enumerated proto file, and its last log record
    is the completion message. *)
Theorem nonzero_exit_status_is_not_fatal
    (installed : string → bool)
    (tool : list string → gmap (list string) kind → proc_result) (fs0 : FS) :
  path_clear fs0 COMPILED_PY_DIR = true →
  path_clear fs0 COMPILED_TS_DIR = true →
  installed "python" = true →
  installed "protol" = true →
  installed "protoc" = true →
  (let r := compile_python installed tool (init fs0) in
   r.1 = inr tt
   ∧ last (logs (trace r.2)) = Some py_done_msg
   ∧ ∃ files, globs (trace r.2) !! 0 = Some files
              ∧ compiler_calls (trace r.2) = py_calls files)
  ∧ (let r := compile_typescript installed tool (init fs0) in
     r.1 = inr tt
     ∧ last (logs (trace r.2)) = Some ts_done_msg
     ∧ ∃ files, globs (trace r.2) !! 0 = Some files
                ∧ compiler_calls (trace r.2) = ts_calls files).
Proof.
  intros Hpy Hts Hipy Hiprotol Hiprotoc. split.
  - destruct (Path_mkdir_ok COMPILED_PY_DIR (init fs0)) as (fs1 & Hmk & _ & _); [done|].
    rewrite (compile_python_complete installed tool _ _ Hmk) by auto.
    cbn [fst snd trace fs init app].
    split; [done|]. rewrite py_steps_logs. split; [done|].
    eexists. rewrite py_steps_globs. split; [done|].
    apply py_steps_compiler_calls.
  - destruct (Path_mkdir_ok COMPILED_TS_DIR (init fs0)) as (fs1 & Hmk & _ & _); [done|].
    rewrite (compile_typescript_complete installed tool _ _ Hmk) by auto.
    cbn [fst snd trace fs init app].
    split; [done|]. rewrite ts_steps_logs. split; [done|].
    eexists. rewrite ts_steps_globs. split; [done|].
    apply ts_steps_compiler_calls.
Qed.

Lemma nonzero_exit_status_is_not_fatal_witness :
  (let r := compile_python all_installed failing_tool (init sample_fs) in
   r.1 = inr tt
   ∧ last (logs (trace r.2)) = Some py_done_msg
   ∧ ∃ files, globs (trace r.2) !! 0 = Some files
              ∧ compiler_calls (trace r.2) = py_calls files)
  ∧ (let r := compile_typescript all_installed failing_tool (init sample_fs) in
     r.1 = inr tt
     ∧ last (logs (trace r.2)) = Some ts_done_msg
     ∧ ∃ files, globs (trace r.2) !! 0 = Some files
                ∧ compiler_calls (trace r.2) = ts_calls files).
Proof.
  apply (nonzero_exit_status_is_not_fatal all_installed failing_tool sample_fs);
    vm_compute; reflexivity.
Defined.

(** C2. If the enumeration of [proto/*.proto] yields the files [files], then
    exactly [length files] compiler processes are started, one per file and
    in that order, and the run ends without an exception; for an empty
    enumeration no compiler is started (for TypeScript: no process at all).
    The compiler has to be startable when there is a file to compile, and
    the Python run goes on to start [protol]. *)
Theorem one_compiler_invocation_per_proto_file
    (installed : string → bool)
    (tool : list string → gmap (list string) kind → proc_result)
    (fs0 : FS) (files : list path) :
  (let r := compile_python installed tool (init fs0) in
   globs (trace r.2) !! 0 = Some files →
   (files ≠ [] → installed "python" = true) →
   installed "protol" = true →
   r.1 = inr tt
   ∧ compiler_calls (trace r.2) = py_calls files
   ∧ length (compiler_calls (trace r.2)) = length files
   ∧ (files = [] → compiler_calls (trace r.2) = []))
  ∧ (let r := compile_typescript installed tool (init fs0) in
     globs (trace r.2) !! 0 = Some files →
     (files ≠ [] → installed "protoc" = true) →
     r.1 = inr tt
     ∧ spawned (trace r.2) = ts_calls files
     ∧ length (spawned (trace r.2)) = length files
     ∧ (files = [] → spawned (trace r.2) = [])).
Proof.
  split.
  - intros r Hglob Hinst Hprotol. subst r.
    destruct (Path_mkdir COMPILED_PY_DIR true true (init fs0)) as [[e|[]] [fs1 t1]] eqn:Hmk.
    { rewrite (compile_python_mkdir_error installed tool _ _ _ Hmk) in Hglob.
      apply Path_mkdir_failure in Hmk as [_ Ht]. simpl in Ht, Hglob. by subst t1. }
    pose proof (Path_mkdir_success _ _ _ _ _ Hmk) as (_ & _ & Ht). simpl in Ht. subst t1.
    destruct (glob_paths fs1 PROTO_DIR "*.proto") as [|f fl] eqn:Hg;
      [|destruct (installed "python") eqn:Hi].
    3:{ rewrite (compile_python_missing_python installed tool _ _ f fl Hmk) in Hglob
          by done.
        injection Hglob as <-. by discriminate Hinst. }
    all: rewrite (compile_python_complete installed tool _ _ Hmk) in Hglob |- *
           by first [done | left; exact Hg | right; done].
    all: cbn [fst snd trace fs app] in Hglob |- *.
    all: rewrite py_steps_globs in Hglob; cbn in Hglob; rewrite Hg in Hglob.
    all: injection Hglob as <-.
    all: rewrite py_steps_compiler_calls, Hg.
    all: repeat split; try done.
    unfold py_calls. by rewrite length_fmap.
  - intros r Hglob Hinst. subst r.
    destruct (Path_mkdir COMPILED_TS_DIR true true (init fs0)) as [[e|[]] [fs1 t1]] eqn:Hmk.
    { rewrite (compile_typescript_mkdir_error installed tool _ _ _ Hmk) in Hglob.
      apply Path_mkdir_failure in Hmk as [_ Ht]. simpl in Ht, Hglob. by subst t1. }
    pose proof (Path_mkdir_success _ _ _ _ _ Hmk) as (_ & _ & Ht). simpl in Ht. subst t1.
    destruct (glob_paths fs1 PROTO_DIR "*.proto") as [|f fl] eqn:Hg;
      [|destruct (installed "protoc") eqn:Hi].
    3:{ rewrite (compile_typescript_missing installed tool _ _ f fl Hmk) in Hglob
          by done.
        injection Hglob as <-. by discriminate Hinst. }
    all: rewrite (compile_typescript_complete installed tool _ _ Hmk) in Hglob |- *
           by first [done | left; exact Hg | right; done].
    all: cbn [fst snd trace fs app] in Hglob |- *.
    all: rewrite ts_steps_globs in Hglob; cbn in Hglob; rewrite Hg in Hglob.
    all: injection Hglob as <-.
    all: rewrite ts_steps_spawned, Hg.
    all: repeat split; try done.
    unfold ts_calls. by rewrite length_fmap.
Qed.

Lemma one_compiler_invocation_per_proto_file_witness :
  let files := [["proto"; "b.proto"]; ["proto"; "a.proto"]] in
  (let r := compile_python all_installed failing_tool (init sample_fs) in
   r.1 = inr tt
   ∧ compiler_calls (trace r.2) = py_calls files
   ∧ length (compiler_calls (trace r.2)) = length files
   ∧ (files = [] → compiler_calls (trace r.2) = []))
  ∧ (let r := compile_typescript all_installed failing_tool (init sample_fs) in
     r.1 = inr tt
     ∧ spawned (trace r.2) = ts_calls files
     ∧ length (spawned (trace r.2)) = length files
     ∧ (files = [] → spawned (trace r.2) = [])).
Proof.
  intros files.
  destruct (one_compiler_invocation_per_proto_file
              all_installed failing_tool sample_fs files) as [Hpy Hts].
  split.
  - apply Hpy; [vm_compute; reflexivity | intros _; reflexivity | reflexivity].
  - apply Hts; [vm_compute; reflexivity | intros _; reflexivity].
Defined.

(** C3. In every run of the Python pipeline in which the directory can be
    created and the tools can be started, [protol] is started exactly once,
    whatever the number of proto files; its command line is the six fixed
    arguments followed by all the files of the second enumeration, so the
    whole batch goes to that single process. *)
Theorem import_fixer_runs_once
    (installed : string → bool)
    (tool : list string → gmap (list string) kind → proc_result) (fs0 : FS) :
  path_clear fs0 COMPILED_PY_DIR = true →
  installed "python" = true →
  installed "protol" = true →
  let r := compile_python installed tool (init fs0) in
  length (fixer_calls (trace r.2)) = 1
  ∧ ∃ files fixed,
      globs (trace r.2) = [files; fixed]
      ∧ length (compiler_calls (trace r.2)) = length files
      ∧ fixer_calls (trace r.2) =
          [ [ "protol"; "--create-package"; "--in-place";
              "--python-out=backend/packages/proto/proto/compiled";
              "protoc"; "--proto-path=proto" ]
            ++ (path_str <$> fixed) ].
Proof.
  intros Hclear Hipy Hiprotol r. subst r.
  destruct (Path_mkdir_ok COMPILED_PY_DIR (init fs0)) as (fs1 & Hmk & _ & _); [done|].
  rewrite (compile_python_complete installed tool _ _ Hmk) by auto.
  cbn [fst snd trace fs init app].
  rewrite py_steps_fixer_calls. split; [done|].
  eexists _, _. rewrite py_steps_globs, py_steps_compiler_calls.
  split; [done|]. split; [|done].
  unfold py_calls. by rewrite length_fmap.
Qed.

Lemma import_fixer_runs_once_witness :
  let r := compile_python all_installed failing_tool (init sample_fs) in
  length (fixer_calls (trace r.2)) = 1
  ∧ ∃ files fixed,
      globs (trace r.2) = [files; fixed]
      ∧ length (compiler_calls (trace r.2)) = length files
      ∧ fixer_calls (trace r.2) =
          [ [ "protol"; "--create-package"; "--in-place";
              "--python-out=backend/packages/proto/proto/compiled";
              "protoc"; "--proto-path=proto" ]
            ++ (path_str <$> fixed) ].
Proof.
  apply (import_fixer_runs_once all_installed failing_tool sample_fs);
    vm_compute; reflexivity.
Defined.

Lemma py_calls_is_fixer files a : a ∈ py_calls files → is_fixer a = false.
Proof. intros (f & -> & _)%list_elem_of_fmap. reflexivity. Qed.

(** Where the import fixer starts in a Python run: after all the events of
    the compilation loop, which leave no child running. *)
Lemma py_fixer_position installed tool fs0 i args seen :
  let t := trace (compile_python installed tool (init fs0)).2 in
  t !! i = Some (EvSpawn args seen) →
  is_fixer args = true →
  ∃ fs1 before rest,
    t = before ++ rest
    ∧ length before = i
    ∧ t = (py_steps tool fs1).1
    ∧ compiler_calls rest = []
    ∧ pending before = []
    ∧ compiler_calls before = py_calls (glob_paths fs1 PROTO_DIR "*.proto")
    ∧ ∀ a, a ∈ py_calls (glob_paths fs1 PROTO_DIR "*.proto") →
           ∃ rc out, EvExit a rc out ∈ before.
Proof.
  intros t Hi Hfix. subst t.
  assert (∀ files fs1 e, e ∈ (run_tools tool (py_calls files) fs1).1 →
                         e ≠ EvSpawn args seen) as Hloop.
  { intros files fs1 e He ->.
    apply events_run_tools in He as [(a & s & Ha & [= -> ->])|(a & rc & out & _ & ?)];
      [|done].
    apply py_calls_is_fixer in Ha. congruence. }
  destruct (Path_mkdir COMPILED_PY_DIR true true (init fs0)) as [[e|[]] [fs1 t1]] eqn:Hmk.
  { rewrite (compile_python_mkdir_error installed tool _ _ _ Hmk) in Hi.
    apply Path_mkdir_failure in Hmk as [_ Ht]. simpl in Ht, Hi. by subst t1. }
  pose proof (Path_mkdir_success _ _ _ _ _ Hmk) as (_ & _ & Ht). simpl in Ht. subst t1.
  assert (glob_paths fs1 PROTO_DIR "*.proto" = [] ∨ installed "python" = true
          ∨ ∃ f files, glob_paths fs1 PROTO_DIR "*.proto" = f :: files
                       ∧ installed "python" = false) as Hcases.
  { destruct (glob_paths _ _ _); [by left|].
    destruct (installed "python"); eauto 6. }
  assert (glob_paths fs1 PROTO_DIR "*.proto" = [] ∨ installed "python" = true) as Hc.
  { destruct Hcases as [Hc|[Hc|(f & files & Hg & Hc)]]; [by left|by right|].
    rewrite (compile_python_missing_python installed tool _ _ f files Hmk Hg Hc) in Hi.
    cbn [snd trace app] in Hi. by destruct i as [|[|[|]]]. }
  clear Hcases.
  destruct (installed "protol") eqn:Hl.
  2:{ rewrite (compile_python_missing_protol installed tool _ _ Hmk Hc Hl) in Hi.
      cbn [snd trace fs app] in Hi. exfalso.
      apply list_elem_of_lookup_2 in Hi.
      apply elem_of_cons in Hi as [?|Hi]; [done|].
      apply elem_of_cons in Hi as [?|Hi]; [done|].
      apply elem_of_app in Hi as [Hi|Hi]; [by eapply Hloop in Hi|].
      apply elem_of_cons in Hi as [?|Hi]; [done|].
      apply elem_of_cons in Hi as [?|Hi]; [done|].
      by apply elem_of_nil in Hi. }
  rewrite (compile_python_complete installed tool _ _ Hmk Hc Hl) in Hi |- *.
  cbn [snd trace fs] in Hi |- *. rewrite (app_nil_l (py_steps _ _).1) in Hi |- *.
  unfold py_steps in Hi |- *. cbn [fst] in Hi |- *.
  set (files := glob_paths fs1 PROTO_DIR "*.proto") in *.
  set (loop := run_tools tool (py_calls files) fs1) in *.
  set (fixed := glob_paths loop.2 PROTO_DIR "*.proto") in *.
  set (r := tool (call_args (protol_call fixed)) loop.2) in *.
  pose (before := [EvLog "Compiling proto files for Python...";
                  EvGlob PROTO_DIR "*.proto" files]
                 ++ loop.1
                 ++ [EvLog "Fixing imports for Python...";
                     EvGlob PROTO_DIR "*.proto" fixed]).
  pose (rest := [EvSpawn (call_args (protol_call fixed)) loop.2;
                EvExit (call_args (protol_call fixed)) (pr_returncode r) (pr_output r);
                EvLog py_done_msg]).
  assert ([EvLog "Compiling proto files for Python..."; EvGlob PROTO_DIR "*.proto" files]
          ++ loop.1
          ++ [EvLog "Fixing imports for Python..."; EvGlob PROTO_DIR "*.proto" fixed;
              EvSpawn (call_args (protol_call fixed)) loop.2;
              EvExit (call_args (protol_call fixed)) (pr_returncode r) (pr_output r);
              EvLog py_done_msg]
          = before ++ rest) as Hsplit.
  { unfold before, rest. by rewrite <- !(assoc_L (++)). }
  rewrite Hsplit in Hi |- *.
  exists fs1, before, rest.
  split; [done|]. split.
  { apply lookup_app_Some in Hi as [Hi|[Hle Hi]].
    - exfalso. apply list_elem_of_lookup_2 in Hi. unfold before in Hi.
      apply elem_of_cons in Hi as [?|Hi]; [done|].
      apply elem_of_cons in Hi as [?|Hi]; [done|].
      apply elem_of_app in Hi as [Hi|Hi]; [by eapply Hloop in Hi|].
      apply elem_of_cons in Hi as [?|Hi]; [done|].
      apply elem_of_cons in Hi as [?|Hi]; [done|].
      by apply elem_of_nil in Hi.
    - destruct (i - length before) as [|[|[|]]] eqn:Hk; try done. lia. }
  split; [done|]. split; [done|]. split; [|split].
  - unfold before. rewrite pending_app. cbn [pending foldl pending_step].
    rewrite foldl_app. unfold loop. by rewrite pending_run_tools.
  - unfold compiler_calls, before. rewrite !spawned_app.
    unfold loop. rewrite spawned_run_tools. cbn. rewrite app_nil_r.
    apply py_calls_not_fixer.
  - intros a Ha. destruct (exits_run_tools tool _ fs1 a Ha) as (rc & out & Hin).
    exists rc, out. unfold before.
    do 2 apply list_elem_of_further. apply elem_of_app. by left.
Qed.

Lemma compiler_calls_app t1 t2 :
  compiler_calls (t1 ++ t2) = compiler_calls t1 ++ compiler_calls t2.
Proof. unfold compiler_calls. by rewrite spawned_app, List.filter_app. Qed.

(** C4. In a Python run, at the moment [protol] is started no child is still
    running: every compiler invocation of the run (one per enumerated file)
    was started before that moment and has exited before it. *)
Theorem import_fixer_starts_after_all_compilations
    (installed : string → bool)
    (tool : list string → gmap (list string) kind → proc_result)
    (fs0 : FS) (i : nat) (args : list string) (seen : gmap (list string) kind) :
  let t := trace (compile_python installed tool (init fs0)).2 in
  t !! i = Some (EvSpawn args seen) →
  is_fixer args = true →
  pending (take i t) = []
  ∧ compiler_calls (take i t) = compiler_calls t
  ∧ (∃ files, globs t !! 0 = Some files ∧ compiler_calls t = py_calls files)
  ∧ (∀ a, a ∈ compiler_calls t →
          ∃ j rc out, j < i ∧ t !! j = Some (EvExit a rc out)).
Proof.
  intros t Hi Hfix.
  destruct (py_fixer_position installed tool fs0 i args seen Hi Hfix)
    as (fs1 & before & rest & Ht & Hlen & Hsteps & Hrest & Hpend & Hcalls & Hexits).
  fold t in Ht, Hsteps.
  assert (take i t = before) as ->.
  { rewrite Ht, <- Hlen. apply take_app_length. }
  assert (compiler_calls t = py_calls (glob_paths fs1 PROTO_DIR "*.proto")) as Hall.
  { rewrite Ht, compiler_calls_app, Hrest, app_nil_r. done. }
  split; [done|]. split; [congruence|]. split.
  - eexists. split; [|exact Hall]. by rewrite Hsteps, py_steps_globs.
  - intros a Ha. rewrite Hall in Ha.
    destruct (Hexits a Ha) as (rc & out & Hin).
    apply list_elem_of_lookup_1 in Hin as [j Hj].
    exists j, rc, out. split.
    + rewrite <- Hlen. by eapply lookup_lt_Some.
    + rewrite Ht. by apply lookup_app_l_Some.
Qed.

Lemma import_fixer_starts_after_all_compilations_witness :
  let t := trace (compile_python all_installed failing_tool (init sample_fs)).2 in
  pending (take 8 t) = []
  ∧ compiler_calls (take 8 t) = compiler_calls t
  ∧ (∃ files, globs t !! 0 = Some files ∧ compiler_calls t = py_calls files)
  ∧ (∀ a, a ∈ compiler_calls t →
          ∃ j rc out, j < 8 ∧ t !! j = Some (EvExit a rc out)).
Proof.
  eapply (import_fixer_starts_after_all_compilations
            all_installed failing_tool sample_fs 8);
    vm_compute; reflexivity.
Defined.

(** * The file system during and after a run *)

Lemma run_tools_seen tool calls fs0 a seen :
  preserves tool →
  EvSpawn a seen ∈ (run_tools tool calls fs0).1 →
  fs0 ⊆ seen ∧ seen ⊆ (run_tools tool calls fs0).2.
Proof.
  intros Hp. revert fs0. induction calls as [|b calls IH]; intros fs0 Hin; simpl in *.
  - by apply elem_of_nil in Hin.
  - apply elem_of_cons in Hin as [Heq|Hin].
    { injection Heq as -> ->. split; [done|].
      etrans; [apply Hp|]. by apply run_tools_preserves. }
    apply elem_of_cons in Hin as [Heq|Hin]; [done|].
    destruct (IH _ Hin) as [H1 H2]. split; [|done].
    etrans; [apply Hp|done].
Qed.

Lemma generating_tool_preserves : preserves generating_tool.
Proof.
  intros args fs0. unfold generating_tool. cbn [pr_fs].
  destruct (fs0 !! _) eqn:E; [done|]. by apply insert_subseteq.
Qed.

Lemma prefix_take (q p : list string) : q `prefix_of` p → q = take (length q) p.
Proof. intros [k ->]. by rewrite take_app_length. Qed.

(** Once created, the output directory stays: it is a directory at the end
    of every run that could create it. *)
Lemma output_directory_kept installed tool fs0 :
  preserves tool →
  (path_clear fs0 COMPILED_PY_DIR = true →
   is_dir (fs (compile_python installed tool (init fs0)).2) COMPILED_PY_DIR = true)
  ∧ (path_clear fs0 COMPILED_TS_DIR = true →
     is_dir (fs (compile_typescript installed tool (init fs0)).2) COMPILED_TS_DIR = true).
Proof.
  intros Hp. split; intros Hclear.
  - destruct (Path_mkdir_ok COMPILED_PY_DIR (init fs0)) as (fs1 & Hmk & _ & Hd); [done|].
    destruct (compile_python_run installed tool _ _ Hmk) as (t & calls & Hrun & _).
    rewrite Hrun. cbn [fs].
    eapply is_dir_mono; [|exact Hd]. by apply run_tools_preserves.
  - destruct (Path_mkdir_ok COMPILED_TS_DIR (init fs0)) as (fs1 & Hmk & _ & Hd); [done|].
    destruct (compile_typescript_run installed tool _ _ Hmk) as (t & calls & Hrun & _).
    rewrite Hrun. cbn [fs].
    eapply is_dir_mono; [|exact Hd]. by apply run_tools_preserves.
Qed.

(** C5. After a run the output directory exists, whatever the proto
    directory contains and however the run ends: when no regular file sits
    where the directory or one of its ancestors has to be, and the external
    tools remove nothing, the directory and all its ancestors are
    directories in the final file system.  Creating a directory that is
    already there is not an error and changes nothing. *)
Theorem output_directory_exists_after_run
    (installed : string → bool)
    (tool : list string → gmap (list string) kind → proc_result) (fs0 : FS) :
  preserves tool →
  (path_clear fs0 COMPILED_PY_DIR = true →
   let w := (compile_python installed tool (init fs0)).2 in
   is_dir (fs w) COMPILED_PY_DIR = true
   ∧ ∀ q, q `prefix_of` COMPILED_PY_DIR → is_dir (fs w) q = true)
  ∧ (path_clear fs0 COMPILED_TS_DIR = true →
     let w := (compile_typescript installed tool (init fs0)).2 in
     is_dir (fs w) COMPILED_TS_DIR = true
     ∧ ∀ q, q `prefix_of` COMPILED_TS_DIR → is_dir (fs w) q = true)
  ∧ (∀ (p : path) (w : World),
       is_dir (fs w) p = true → Path_mkdir p true true w = (inr tt, w)).
Proof.
  intros Hp. destruct (output_directory_kept installed tool fs0 Hp) as [Hpy Hts].
  split; [|split].
  - intros Hclear w. specialize (Hpy Hclear). split; [done|].
    intros q Hq. rewrite (prefix_take _ _ Hq). by apply is_dir_take.
  - intros Hclear w. specialize (Hts Hclear). split; [done|].
    intros q Hq. rewrite (prefix_take _ _ Hq). by apply is_dir_take.
  - intros p w. apply Path_mkdir_exists.
Qed.

Lemma output_directory_exists_after_run_witness :
  (let w := (compile_python all_installed generating_tool (init sample_fs)).2 in
   is_dir (fs w) COMPILED_PY_DIR = true
   ∧ ∀ q, q `prefix_of` COMPILED_PY_DIR → is_dir (fs w) q = true)
  ∧ (let w := (compile_typescript all_installed generating_tool (init sample_fs)).2 in
     is_dir (fs w) COMPILED_TS_DIR = true
     ∧ ∀ q, q `prefix_of` COMPILED_TS_DIR → is_dir (fs w) q = true)
  ∧ (∀ (p : path) (w : World),
       is_dir (fs w) p = true → Path_mkdir p true true w = (inr tt, w)).
Proof.
  destruct (output_directory_exists_after_run
              all_installed generating_tool sample_fs generating_tool_preserves)
    as (Hpy & Hts & Hnoop).
  split; [|split].
  - apply Hpy. vm_compute. reflexivity.
  - apply Hts. vm_compute. reflexivity.
  - exact Hnoop.
Defined.

(** * Running a pipeline twice *)










(** On the sample, the second run meets the artifact of the first and its
    children write it again: twice over by the compiler of each proto file
    and, in the Python pipeline, once more by [protol]. *)
Example second_run_writes_the_artifact_again :
  (let w1 := (compile_python all_installed overwriting_tool (init sample_fs)).2 in
   let r2 := compile_python all_installed overwriting_tool (init (fs w1)) in
   let artifact := ["backend"; "packages"; "proto"; "proto"; "compiled"; "a_pb2.py"] in
   fs w1 !! artifact = Some File
   ∧ written overwriting_tool_writes (trace r2.2) = [artifact; artifact; artifact]
   ∧ fs r2.2 !! artifact = Some File)
  ∧ (let w1 := (compile_typescript all_installed overwriting_tool (init sample_fs)).2 in
     let r2 := compile_typescript all_installed overwriting_tool (init (fs w1)) in
     let artifact := ["packages"; "proto"; "src"; "lib"; "gen"; "a.ts"] in
     fs w1 !! artifact = Some File
     ∧ written overwriting_tool_writes (trace r2.2) = [artifact; artifact]
     ∧ fs r2.2 !! artifact = Some File).
Proof. cbv zeta. split; (split; [|split]); vm_compute; reflexivity. Qed.

(** The overwriting is the tools' doing, not the scripts': with a tool that
    leaves an existing artifact alone, the second run still ends normally and
    writes nothing. *)
Example artifact_kept_by_a_tool_that_does_not_overwrite :
  let w1 := (compile_python all_installed generating_tool (init sample_fs)).2 in
  let r2 := compile_python all_installed generating_tool (init (fs w1)) in
  r2.1 = inr tt
  ∧ written generating_tool_writes (trace w1)
    = [["backend"; "packages"; "proto"; "proto"; "compiled"; "a_pb2.py"]]
  ∧ written generating_tool_writes (trace r2.2) = [].
Proof. cbv zeta. split; [|split]; vm_compute; reflexivity. Qed.

(** C8. The output directory is there before any child process is started,
    and the scripts delete nothing.  With external tools that remove
    nothing themselves: each child (every compiler, and [protol]) starts in
    a file system in which the output directory is a directory and in which
    every entry of the initial file system, the proto sources among them, is
    still present; whatever a child saw is still present at the end of the
    run, and so is every initial entry. *)
Theorem output_directory_first_and_nothing_deleted
    (installed : string → bool)
    (tool : list string → gmap (list string) kind → proc_result) (fs0 : FS) :
  preserves tool →
  (let w := (compile_python installed tool (init fs0)).2 in
   (∀ args seen, EvSpawn args seen ∈ trace w →
      is_dir seen COMPILED_PY_DIR = true ∧ fs0 ⊆ seen ∧ seen ⊆ fs w)
   ∧ fs0 ⊆ fs w)
  ∧ (let w := (compile_typescript installed tool (init fs0)).2 in
     (∀ args seen, EvSpawn args seen ∈ trace w →
        is_dir seen COMPILED_TS_DIR = true ∧ fs0 ⊆ seen ∧ seen ⊆ fs w)
     ∧ fs0 ⊆ fs w).
Proof.
  intros Hp. split; intros w; subst w.
  - destruct (Path_mkdir COMPILED_PY_DIR true true (init fs0)) as [[e|[]] [fs1 t1]] eqn:Hmk.
    { rewrite (compile_python_mkdir_error installed tool _ _ _ Hmk).
      apply Path_mkdir_failure in Hmk as [Hs Ht]. simpl in *. subst t1.
      split; [|done]. intros args seen Hin. by apply elem_of_nil in Hin. }
    pose proof (Path_mkdir_success _ _ _ _ _ Hmk) as (Hd & Hs & Ht). simpl in *. subst t1.
    destruct (compile_python_run installed tool _ _ Hmk) as (t & calls & -> & Hspawn).
    cbn [fs trace app]. split.
    + intros args seen Hin. apply Hspawn in Hin.
      destruct (run_tools_seen tool calls fs1 args seen Hp Hin) as [H1 H2].
      split; [by eapply is_dir_mono|]. split; [by etrans|done].
    + etrans; [exact Hs|]. by apply run_tools_preserves.
  - destruct (Path_mkdir COMPILED_TS_DIR true true (init fs0)) as [[e|[]] [fs1 t1]] eqn:Hmk.
    { rewrite (compile_typescript_mkdir_error installed tool _ _ _ Hmk).
      apply Path_mkdir_failure in Hmk as [Hs Ht]. simpl in *. subst t1.
      split; [|done]. intros args seen Hin. by apply elem_of_nil in Hin. }
    pose proof (Path_mkdir_success _ _ _ _ _ Hmk) as (Hd & Hs & Ht). simpl in *. subst t1.
    destruct (compile_typescript_run installed tool _ _ Hmk) as (t & calls & -> & Hspawn).
    cbn [fs trace app]. split.
    + intros args seen Hin. apply Hspawn in Hin.
      destruct (run_tools_seen tool calls fs1 args seen Hp Hin) as [H1 H2].
      split; [by eapply is_dir_mono|]. split; [by etrans|done].
    + etrans; [exact Hs|]. by apply run_tools_preserves.
Qed.

Lemma output_directory_first_and_nothing_deleted_witness :
  (let w := (compile_python all_installed generating_tool (init sample_fs)).2 in
   (∀ args seen, EvSpawn args seen ∈ trace w →
      is_dir seen COMPILED_PY_DIR = true ∧ sample_fs ⊆ seen ∧ seen ⊆ fs w)
   ∧ sample_fs ⊆ fs w)
  ∧ (let w := (compile_typescript all_installed generating_tool (init sample_fs)).2 in
     (∀ args seen, EvSpawn args seen ∈ trace w →
        is_dir seen COMPILED_TS_DIR = true ∧ sample_fs ⊆ seen ∧ seen ⊆ fs w)
     ∧ sample_fs ⊆ fs w).
Proof.
  apply (output_directory_first_and_nothing_deleted
           all_installed generating_tool sample_fs generating_tool_preserves).
Defined.

(** * The two enumerations of the Python pipeline *)

Lemma run_tools_keeps_listing tool calls fs0 :
  keeps_listing tool →
  glob_paths (run_tools tool calls fs0).2 PROTO_DIR "*.proto"
  = glob_paths fs0 PROTO_DIR "*.proto".
Proof.
  intros Hk. revert fs0. induction calls as [|a calls IH]; intros fs0; [done|].
  simpl. by rewrite IH, Hk.
Qed.

Lemma compiled_files_py_calls files : omap last (py_calls files) = path_str <$> files.
Proof.
  unfold py_calls. induction files as [|f files IH]; [done|].
  simpl. f_equal. exact IH.
Qed.

(** C9. The Python pipeline enumerates the proto directory twice.  When the
    tools leave the listing of that directory as it is, both enumerations
    yield the same files, and the files handed to [protol] are the files
    that were compiled: the same list, hence the same set. *)
Theorem import_fixer_gets_the_compiled_files
    (installed : string → bool)
    (tool : list string → gmap (list string) kind → proc_result) (fs0 : FS) :
  path_clear fs0 COMPILED_PY_DIR = true →
  installed "python" = true →
  installed "protol" = true →
  keeps_listing tool →
  let t := trace (compile_python installed tool (init fs0)).2 in
  (∃ files, globs t = [files; files]
            ∧ compiled_files t = path_str <$> files
            ∧ fixed_files t = path_str <$> files)
  ∧ fixed_files t = compiled_files t
  ∧ (list_to_set (fixed_files t) : gset string) = list_to_set (compiled_files t).
Proof.
  intros Hclear Hipy Hiprotol Hk t. subst t.
  destruct (Path_mkdir_ok COMPILED_PY_DIR (init fs0)) as (fs1 & Hmk & _ & _); [done|].
  rewrite (compile_python_complete installed tool _ _ Hmk) by auto.
  cbn [fst snd trace fs init app].
  assert (compiled_files (py_steps tool fs1).1
          = path_str <$> glob_paths fs1 PROTO_DIR "*.proto") as Hc.
  { unfold compiled_files. by rewrite py_steps_compiler_calls, compiled_files_py_calls. }
  assert (fixed_files (py_steps tool fs1).1
          = path_str <$> glob_paths fs1 PROTO_DIR "*.proto") as Hf.
  { unfold fixed_files. rewrite py_steps_fixer_calls. cbn.
    by rewrite app_nil_r, run_tools_keeps_listing. }
  split; [|by rewrite Hc, Hf].
  eexists. split; [|done].
  by rewrite py_steps_globs, run_tools_keeps_listing.
Qed.

Lemma failing_tool_keeps_listing : keeps_listing failing_tool.
Proof. intros args fs0. reflexivity. Qed.

Lemma import_fixer_gets_the_compiled_files_witness :
  let t := trace (compile_python all_installed failing_tool (init sample_fs)).2 in
  (∃ files, globs t = [files; files]
            ∧ compiled_files t = path_str <$> files
            ∧ fixed_files t = path_str <$> files)
  ∧ fixed_files t = compiled_files t
  ∧ (list_to_set (fixed_files t) : gset string) = list_to_set (compiled_files t).
Proof.
  apply (import_fixer_gets_the_compiled_files all_installed failing_tool sample_fs);
    [vm_compute; reflexivity | reflexivity | reflexivity
    | exact failing_tool_keeps_listing].
Defined.

(** * Command lines as a function of the enumerations *)

(** A run that ends without an exception did all the steps. *)
Lemma compile_python_completed installed tool fs0 :
  (compile_python installed tool (init fs0)).1 = inr tt →
  ∃ fs1, trace (compile_python installed tool (init fs0)).2 = (py_steps tool fs1).1.
Proof.
  intros Hok.
  destruct (Path_mkdir COMPILED_PY_DIR true true (init fs0)) as [[e|[]] [fs1 t1]] eqn:Hmk.
  { by rewrite (compile_python_mkdir_error installed tool _ _ _ Hmk) in Hok. }
  pose proof (Path_mkdir_success _ _ _ _ _ Hmk) as (_ & _ & Ht). simpl in Ht. subst t1.
  assert (glob_paths fs1 PROTO_DIR "*.proto" = [] ∨ installed "python" = true) as Hc.
  { destruct (glob_paths fs1 PROTO_DIR "*.proto") as [|f files] eqn:Hg; [by left|].
    destruct (installed "python") eqn:Hi; [by right|].
    by rewrite (compile_python_missing_python installed tool _ _ f files Hmk Hg Hi) in Hok. }
  destruct (installed "protol") eqn:Hl.
  - exists fs1. by rewrite (compile_python_complete installed tool _ _ Hmk Hc Hl).
  - by rewrite (compile_python_missing_protol installed tool _ _ Hmk Hc Hl) in Hok.
Qed.

Lemma compile_typescript_completed installed tool fs0 :
  (compile_typescript installed tool (init fs0)).1 = inr tt →
  ∃ fs1, trace (compile_typescript installed tool (init fs0)).2 = (ts_steps tool fs1).1.
Proof.
  intros Hok.
  destruct (Path_mkdir COMPILED_TS_DIR true true (init fs0)) as [[e|[]] [fs1 t1]] eqn:Hmk.
  { by rewrite (compile_typescript_mkdir_error installed tool _ _ _ Hmk) in Hok. }
  pose proof (Path_mkdir_success _ _ _ _ _ Hmk) as (_ & _ & Ht). simpl in Ht. subst t1.
  assert (glob_paths fs1 PROTO_DIR "*.proto" = [] ∨ installed "protoc" = true) as Hc.
  { destruct (glob_paths fs1 PROTO_DIR "*.proto") as [|f files] eqn:Hg; [by left|].
    destruct (installed "protoc") eqn:Hi; [by right|].
    by rewrite (compile_typescript_missing installed tool _ _ f files Hmk Hg Hi) in Hok. }
  exists fs1. by rewrite (compile_typescript_complete installed tool _ _ Hmk Hc).
Qed.

(** C10. The command lines of a run are a function of what its enumerations
    yield, and of nothing else.  A run of the Python pipeline that can
    create its directory and start its executables returns normally and
    starts, for each enumerated proto file in turn, the seven constant
    compiler arguments followed by the path of that file, and then [protol]
    with its six constant arguments followed by the paths of the second
    enumeration; a run of the TypeScript pipeline starts, for each
    enumerated file in turn, the five constant arguments followed by the
    path of that file.  Hence two runs that go through to the end and
    enumerate the same files start the same processes in the same order,
    whatever their file systems and tools are otherwise. *)
Theorem command_lines_depend_on_enumeration_only :
  (∀ installed tool (fs0 : FS),
     path_clear fs0 COMPILED_PY_DIR = true →
     installed "python" = true →
     installed "protol" = true →
     let r := compile_python installed tool (init fs0) in
     r.1 = inr tt
     ∧ ∃ files fixed : list path,
         globs (trace r.2) = [files; fixed]
         ∧ spawned (trace r.2) =
             ((λ proto_file,
                 [ "python"; "-m"; "grpc_tools.protoc"; "--proto_path=proto";
                   "--python_out=backend/packages/proto/proto/compiled";
                   "--grpc_python_out=backend/packages/proto/proto/compiled";
                   "--pyi_out=backend/packages/proto/proto/compiled" ]
                 ++ [path_str proto_file]) <$> files)
             ++ [ [ "protol"; "--create-package"; "--in-place";
                    "--python-out=backend/packages/proto/proto/compiled";
                    "protoc"; "--proto-path=proto" ]
                  ++ (path_str <$> fixed) ])
  ∧ (∀ installed tool (fs0 : FS),
       path_clear fs0 COMPILED_TS_DIR = true →
       installed "protoc" = true →
       let r := compile_typescript installed tool (init fs0) in
       r.1 = inr tt
       ∧ ∃ files : list path,
           globs (trace r.2) = [files]
           ∧ spawned (trace r.2) =
               (λ proto_file,
                  [ "protoc"; "--proto_path=proto";
                    "--plugin=node_modules/.bin/protoc-gen-ts_proto";
                    "--ts_proto_out=packages/proto/src/lib/gen";
                    "--ts_proto_opt=importSuffix=.js" ]
                  ++ [path_str proto_file]) <$> files)
  ∧ (∀ installed1 installed2 tool1 tool2 (fs1 fs2 : FS),
       let r1 := compile_python installed1 tool1 (init fs1) in
       let r2 := compile_python installed2 tool2 (init fs2) in
       r1.1 = inr tt → r2.1 = inr tt →
       globs (trace r1.2) = globs (trace r2.2) →
       spawned (trace r1.2) = spawned (trace r2.2))
  ∧ (∀ installed1 installed2 tool1 tool2 (fs1 fs2 : FS),
       let r1 := compile_typescript installed1 tool1 (init fs1) in
       let r2 := compile_typescript installed2 tool2 (init fs2) in
       r1.1 = inr tt → r2.1 = inr tt →
       globs (trace r1.2) = globs (trace r2.2) →
       spawned (trace r1.2) = spawned (trace r2.2)).
Proof.
  split; [|split; [|split]].
  - intros installed tool fs0 Hclear Hipy Hiprotol r. subst r.
    destruct (Path_mkdir_ok COMPILED_PY_DIR (init fs0)) as (fs1 & Hmk & _ & _); [done|].
    rewrite (compile_python_complete installed tool _ _ Hmk) by auto.
    cbn [fst snd trace fs init app]. split; [done|].
    rewrite py_steps_globs, py_steps_spawned. cbn zeta.
    eexists _, _. split; reflexivity.
  - intros installed tool fs0 Hclear Hiprotoc r. subst r.
    destruct (Path_mkdir_ok COMPILED_TS_DIR (init fs0)) as (fs1 & Hmk & _ & _); [done|].
    rewrite (compile_typescript_complete installed tool _ _ Hmk) by auto.
    cbn [fst snd trace fs init app]. split; [done|].
    rewrite ts_steps_globs, ts_steps_spawned.
    eexists. split; reflexivity.
  - intros installed1 installed2 tool1 tool2 fs1 fs2 r1 r2 Hok1 Hok2. subst r1 r2.
    destruct (compile_python_completed _ _ _ Hok1) as [fs1' ->].
    destruct (compile_python_completed _ _ _ Hok2) as [fs2' ->].
    rewrite !py_steps_globs, !py_steps_spawned. cbn zeta.
    intros [= -> ->]. done.
  - intros installed1 installed2 tool1 tool2 fs1 fs2 r1 r2 Hok1 Hok2. subst r1 r2.
    destruct (compile_typescript_completed _ _ _ Hok1) as [fs1' ->].
    destruct (compile_typescript_completed _ _ _ Hok2) as [fs2' ->].
    rewrite !ts_steps_globs, !ts_steps_spawned.
    intros [= ->]. done.
Qed.

Lemma command_lines_depend_on_enumeration_only_witness :
  (let r := compile_python all_installed generating_tool (init sample_fs) in
   r.1 = inr tt
   ∧ ∃ files fixed : list path,
       globs (trace r.2) = [files; fixed]
       ∧ spawned (trace r.2) =
           ((λ proto_file,
               [ "python"; "-m"; "grpc_tools.protoc"; "--proto_path=proto";
                 "--python_out=backend/packages/proto/proto/compiled";
                 "--grpc_python_out=backend/packages/proto/proto/compiled";
                 "--pyi_out=backend/packages/proto/proto/compiled" ]
               ++ [path_str proto_file]) <$> files)
           ++ [ [ "protol"; "--create-package"; "--in-place";
                  "--python-out=backend/packages/proto/proto/compiled";
                  "protoc"; "--proto-path=proto" ]
                ++ (path_str <$> fixed) ])
  ∧ (let r := compile_typescript all_installed generating_tool (init sample_fs) in
     r.1 = inr tt
     ∧ ∃ files : list path,
         globs (trace r.2) = [files]
         ∧ spawned (trace r.2) =
             (λ proto_file,
                [ "protoc"; "--proto_path=proto";
                  "--plugin=node_modules/.bin/protoc-gen-ts_proto";
                  "--ts_proto_out=packages/proto/src/lib/gen";
                  "--ts_proto_opt=importSuffix=.js" ]
                ++ [path_str proto_file]) <$> files)
  ∧ (let r1 := compile_python all_installed failing_tool (init sample_fs) in
     let r2 := compile_python all_installed generating_tool (init sample_fs) in
     spawned (trace r1.2) = spawned (trace r2.2))
  ∧ (let r1 := compile_typescript all_installed failing_tool (init sample_fs) in
     let r2 := compile_typescript all_installed generating_tool (init sample_fs) in
     spawned (trace r1.2) = spawned (trace r2.2)).
Proof.
  destruct command_lines_depend_on_enumeration_only as (Hpy1 & Hts1 & Hpy & Hts).
  split; [|split; [|split]].
  - apply Hpy1; [vm_compute; reflexivity | reflexivity | reflexivity].
  - apply Hts1; [vm_compute; reflexivity | reflexivity].
  - apply Hpy; vm_compute; reflexivity.
  - apply Hts; vm_compute; reflexivity.
Defined.

(** * What the scripts take from a child process *)

Section Interference.

Variable installed : string → bool.
Variables tool1 tool2 : list string → gmap (list string) kind → proc_result.

(** The two tools act alike on the file system, and may differ in every exit
    status and in everything they print. *)
Hypothesis same_effect : ∀ args fs0, pr_fs (tool1 args fs0) = pr_fs (tool2 args fs0).

Lemma run_tools_actions calls fs0 :
  (run_tools tool1 calls fs0).2 = (run_tools tool2 calls fs0).2
  ∧ action <$> (run_tools tool1 calls fs0).1 = action <$> (run_tools tool2 calls fs0).1.
Proof.
  revert fs0. induction calls as [|a calls IH]; intros fs0; [done|].
  cbn [run_tools fst snd]. rewrite same_effect.
  destruct (IH (pr_fs (tool2 a fs0))) as [-> IH1].
  split; [done|]. rewrite !fmap_cons. cbn [action]. by rewrite IH1.
Qed.

Lemma py_steps_actions fs1 :
  (py_steps tool1 fs1).2 = (py_steps tool2 fs1).2
  ∧ action <$> (py_steps tool1 fs1).1 = action <$> (py_steps tool2 fs1).1.
Proof.
  unfold py_steps. cbn [fst snd].
  destruct (run_tools_actions (py_calls (glob_paths fs1 PROTO_DIR "*.proto")) fs1)
    as [H2 H1].
  rewrite !fmap_app, H1, H2. split; [apply same_effect|done].
Qed.

Lemma ts_steps_actions fs1 :
  (ts_steps tool1 fs1).2 = (ts_steps tool2 fs1).2
  ∧ action <$> (ts_steps tool1 fs1).1 = action <$> (ts_steps tool2 fs1).1.
Proof.
  unfold ts_steps. cbn [fst snd].
  destruct (run_tools_actions (ts_calls (glob_paths fs1 PROTO_DIR "*.proto")) fs1)
    as [H2 H1].
  by rewrite !fmap_app, H1, H2.
Qed.

(** Exit statuses and output have no influence on what a script does. *)
Lemma compile_python_actions w0 :
  let r1 := compile_python installed tool1 w0 in
  let r2 := compile_python installed tool2 w0 in
  r1.1 = r2.1 ∧ fs r1.2 = fs r2.2 ∧ action <$> trace r1.2 = action <$> trace r2.2.
Proof.
  intros r1 r2. subst r1 r2.
  destruct (Path_mkdir COMPILED_PY_DIR true true w0) as [[e|[]] w1] eqn:Hmk.
  { by rewrite !(compile_python_mkdir_error installed _ _ _ _ Hmk). }
  assert (glob_paths (fs w1) PROTO_DIR "*.proto" = [] ∨ installed "python" = true
          ∨ ∃ f files, glob_paths (fs w1) PROTO_DIR "*.proto" = f :: files
                       ∧ installed "python" = false) as [Hc|[Hc|(f & files & Hg & Hc)]].
  { destruct (glob_paths _ _ _); [by left|].
    destruct (installed "python"); eauto 6. }
  3:{ by rewrite !(compile_python_missing_python installed _ _ _ f files Hmk Hg Hc). }
  all: destruct (installed "protol") eqn:Hl.
  all: first
    [ rewrite !(compile_python_complete installed _ _ _ Hmk) by auto;
      cbn [fst snd fs trace];
      destruct (py_steps_actions (fs w1)) as [-> H1];
      by rewrite !fmap_app, H1
    | rewrite !(compile_python_missing_protol installed _ _ _ Hmk) by auto;
      cbn [fst snd fs trace];
      destruct (run_tools_actions
                  (py_calls (glob_paths (fs w1) PROTO_DIR "*.proto")) (fs w1))
        as [H2 H1];
      by rewrite !fmap_app, H1, H2 ].
Qed.

Lemma compile_typescript_actions w0 :
  let r1 := compile_typescript installed tool1 w0 in
  let r2 := compile_typescript installed tool2 w0 in
  r1.1 = r2.1 ∧ fs r1.2 = fs r2.2 ∧ action <$> trace r1.2 = action <$> trace r2.2.
Proof.
  intros r1 r2. subst r1 r2.
  destruct (Path_mkdir COMPILED_TS_DIR true true w0) as [[e|[]] w1] eqn:Hmk.
  { by rewrite !(compile_typescript_mkdir_error installed _ _ _ _ Hmk). }
  assert (glob_paths (fs w1) PROTO_DIR "*.proto" = [] ∨ installed "protoc" = true
          ∨ ∃ f files, glob_paths (fs w1) PROTO_DIR "*.proto" = f :: files
                       ∧ installed "protoc" = false) as [Hc|[Hc|(f & files & Hg & Hc)]].
  { destruct (glob_paths _ _ _); [by left|].
    destruct (installed "protoc"); eauto 6. }
  3:{ by rewrite !(compile_typescript_missing installed _ _ _ f files Hmk Hg Hc). }
  all: rewrite !(compile_typescript_complete installed _ _ _ Hmk) by auto.
  all: cbn [fst snd fs trace].
  all: destruct (ts_steps_actions (fs w1)) as [-> H1].
  all: by rewrite !fmap_app, H1.
Qed.

End Interference.

(** [subprocess.run] without pipes hands back the exit status and nothing
    else. *)
Lemma subprocess_run_result installed tool c w r w' :
  subprocess_run installed tool c w = (inr r, w') →
  cp_returncode r = pr_returncode (tool (call_args c) (fs w))
  ∧ cp_stdout r = None ∧ cp_stderr r = None.
Proof.
  unfold subprocess_run, mbind, M_bind, Popen, communicate.
  destruct (installed (hd "" (call_args c))); [|done]. cbn.
  destruct (default false (call_check c) && _); [done|].
  by intros [= <- <-].
Qed.

(** C6, as the scripts have it.  A compiler invocation hands back its exit
    status and nothing else (no output is captured), and nothing a child
    reports is looked at: two tools that act alike on the file system make a
    script do the same things and end the same way, whatever their exit
    statuses and output.  In both pipelines the exit status is ignored
    explicitly: every call site passes [check=False]. *)
Theorem exit_status_captured_and_explicitly_ignored
    (installed : string → bool)
    (tool1 tool2 : list string → gmap (list string) kind → proc_result) (fs0 : FS) :
  (∀ args fs, pr_fs (tool1 args fs) = pr_fs (tool2 args fs)) →
  (∀ c w r w',
     subprocess_run installed tool1 c w = (inr r, w') →
     cp_returncode r = pr_returncode (tool1 (call_args c) (fs w))
     ∧ cp_stdout r = None ∧ cp_stderr r = None)
  ∧ (let r1 := compile_python installed tool1 (init fs0) in
     let r2 := compile_python installed tool2 (init fs0) in
     r1.1 = r2.1 ∧ fs r1.2 = fs r2.2 ∧ action <$> trace r1.2 = action <$> trace r2.2)
  ∧ (let r1 := compile_typescript installed tool1 (init fs0) in
     let r2 := compile_typescript installed tool2 (init fs0) in
     r1.1 = r2.1 ∧ fs r1.2 = fs r2.2 ∧ action <$> trace r1.2 = action <$> trace r2.2)
  ∧ (∀ proto_file proto_files,
       ignores_explicitly (py_protoc_call proto_file)
       ∧ ignores_explicitly (protol_call proto_files)
       ∧ ignores_explicitly (ts_protoc_call proto_file)).
Proof.
  intros Hsame. split; [|split; [|split]].
  - intros c w r w'. apply subprocess_run_result.
  - by apply compile_python_actions.
  - by apply compile_typescript_actions.
  - done.
Qed.

Lemma exit_status_captured_and_explicitly_ignored_witness :
  (∀ c w r w',
     subprocess_run all_installed failing_tool c w = (inr r, w') →
     cp_returncode r = pr_returncode (failing_tool (call_args c) (fs w))
     ∧ cp_stdout r = None ∧ cp_stderr r = None)
  ∧ (let r1 := compile_python all_installed failing_tool (init sample_fs) in
     let r2 := compile_python all_installed quiet_tool (init sample_fs) in
     r1.1 = r2.1 ∧ fs r1.2 = fs r2.2 ∧ action <$> trace r1.2 = action <$> trace r2.2)
  ∧ (let r1 := compile_typescript all_installed failing_tool (init sample_fs) in
     let r2 := compile_typescript all_installed quiet_tool (init sample_fs) in
     r1.1 = r2.1 ∧ fs r1.2 = fs r2.2 ∧ action <$> trace r1.2 = action <$> trace r2.2)
  ∧ (∀ proto_file proto_files,
       ignores_explicitly (py_protoc_call proto_file)
       ∧ ignores_explicitly (protol_call proto_files)
       ∧ ignores_explicitly (ts_protoc_call proto_file)).
Proof.
  apply (exit_status_captured_and_explicitly_ignored
           all_installed failing_tool quiet_tool sample_fs).
  intros args fs0. reflexivity.
Defined.

(** C6, as stated, has the exit status ignored explicitly in one pipeline
    and implicitly in the other.  That is not so: neither compiler call
    site leaves the [check] keyword out. *)
Lemma exit_status_not_implicitly_ignored :
  ¬ ((ignores_explicitly (py_protoc_call ["proto"; "a.proto"])
      ∧ ignores_implicitly (ts_protoc_call ["proto"; "a.proto"]))
     ∨ (ignores_implicitly (py_protoc_call ["proto"; "a.proto"])
        ∧ ignores_explicitly (ts_protoc_call ["proto"; "a.proto"]))).
Proof. intros [[_ H]|[H _]]; discriminate H. Qed.

(** * Where the assumptions are needed *)

(** A regular file where the output directory has to be makes
    [Path.mkdir(parents=True, exist_ok=True)] raise, and the script stops
    before doing anything else. *)
Example mkdir_blocked_by_a_file :
  let fs0 : FS := <[ ["packages"; "proto"] := File ]> sample_fs in
  compile_typescript all_installed quiet_tool (init fs0)
  = (inl (NotADirectoryError "packages/proto/src/lib/gen"), init fs0).
Proof. vm_compute. reflexivity. Qed.

(** A compiler that cannot be started raises out of the loop: the exit
    status is ignored, a failure to launch is not. *)
Example missing_compiler_aborts :
  let r := compile_typescript (λ _, false) quiet_tool (init sample_fs) in
  r.1 = inl (FileNotFoundError "protoc") ∧ spawned (trace r.2) = [].
Proof. vm_compute. split; reflexivity. Qed.

(** With [check=True] the same non-zero status would raise. *)
Example check_true_would_raise :
  (subprocess_run all_installed failing_tool
     (mkCall ["protoc"; "proto/a.proto"] (Some true)) (init sample_fs)).1
  = inl (CalledProcessError 1 ["protoc"; "proto/a.proto"]).
Proof. vm_compute. reflexivity. Qed.

(** With no proto directory at all nothing is compiled and both scripts
    still run to their end. *)
Example no_proto_directory :
  let r := compile_typescript all_installed failing_tool (init ∅) in
  r.1 = inr tt ∧ globs (trace r.2) = [[]] ∧ spawned (trace r.2) = []
  ∧ is_dir (fs r.2) COMPILED_TS_DIR = true.
Proof. vm_compute. repeat split; reflexivity. Qed.

(** * Every way a run can end *)

(** A Python run ends in one of four ways: the directory step raises; the
    compiler cannot be started for the first file; [protol] cannot be
    started after the loop; or all steps are done. *)
Lemma compile_python_cases installed tool fs0 :
  let r := compile_python installed tool (init fs0) in
  (∃ e fs1, Path_mkdir COMPILED_PY_DIR true true (init fs0) = (inl e, mkWorld fs1 [])
            ∧ r = (inl e, mkWorld fs1 []))
  ∨ ∃ fs1, Path_mkdir COMPILED_PY_DIR true true (init fs0) = (inr tt, mkWorld fs1 [])
    ∧ let files := glob_paths fs1 PROTO_DIR "*.proto" in
      let loop := run_tools tool (py_calls files) fs1 in
      (files ≠ [] ∧ installed "python" = false
       ∧ r = (inl (FileNotFoundError "python"),
              mkWorld fs1 [EvLog "Compiling proto files for Python...";
                           EvGlob PROTO_DIR "*.proto" files]))
      ∨ ((files = [] ∨ installed "python" = true) ∧ installed "protol" = false
         ∧ r = (inl (FileNotFoundError "protol"),
                mkWorld loop.2
                  ([EvLog "Compiling proto files for Python...";
                    EvGlob PROTO_DIR "*.proto" files]
                   ++ loop.1
                   ++ [EvLog "Fixing imports for Python...";
                       EvGlob PROTO_DIR "*.proto"
                         (glob_paths loop.2 PROTO_DIR "*.proto")])))
      ∨ ((files = [] ∨ installed "python" = true) ∧ installed "protol" = true
         ∧ r = (inr tt, mkWorld (py_steps tool fs1).2 (py_steps tool fs1).1)).
Proof.
  intros r. subst r.
  destruct (Path_mkdir COMPILED_PY_DIR true true (init fs0)) as [[e|[]] [fs1 t1]] eqn:Hmk.
  { left. exists e, fs1.
    pose proof (Path_mkdir_failure _ _ _ _ _ _ Hmk) as [_ Ht]. simpl in Ht. subst t1.
    split; [done|]. by apply compile_python_mkdir_error. }
  right. exists fs1.
  pose proof (Path_mkdir_success _ _ _ _ _ Hmk) as (_ & _ & Ht). simpl in Ht. subst t1.
  split; [done|]. cbn zeta.
  destruct (glob_paths fs1 PROTO_DIR "*.proto") as [|f files] eqn:Hg;
    [|destruct (installed "python") eqn:Hi].
  3:{ left. split; [done|]. split; [done|].
      by rewrite (compile_python_missing_python installed tool _ _ f files Hmk Hg Hi). }
  all: right; destruct (installed "protol") eqn:Hl; [right|left].
  all: split; [auto|]; split; [done|].
  all: first
    [ rewrite (compile_python_complete installed tool _ _ Hmk)
        by first [done | left; exact Hg | right; done];
      reflexivity
    | rewrite (compile_python_missing_protol installed tool _ _ Hmk)
        by first [done | left; exact Hg | right; done];
      cbn [fs trace]; by rewrite Hg ].
Qed.

(** A TypeScript run ends in one of three ways. *)
Lemma compile_typescript_cases installed tool fs0 :
  let r := compile_typescript installed tool (init fs0) in
  (∃ e fs1, Path_mkdir COMPILED_TS_DIR true true (init fs0) = (inl e, mkWorld fs1 [])
            ∧ r = (inl e, mkWorld fs1 []))
  ∨ ∃ fs1, Path_mkdir COMPILED_TS_DIR true true (init fs0) = (inr tt, mkWorld fs1 [])
    ∧ let files := glob_paths fs1 PROTO_DIR "*.proto" in
      (files ≠ [] ∧ installed "protoc" = false
       ∧ r = (inl (FileNotFoundError "protoc"),
              mkWorld fs1 [EvLog "Compiling proto files for TypeScript...";
                           EvGlob PROTO_DIR "*.proto" files]))
      ∨ ((files = [] ∨ installed "protoc" = true)
         ∧ r = (inr tt, mkWorld (ts_steps tool fs1).2 (ts_steps tool fs1).1)).
Proof.
  intros r. subst r.
  destruct (Path_mkdir COMPILED_TS_DIR true true (init fs0)) as [[e|[]] [fs1 t1]] eqn:Hmk.
  { left. exists e, fs1.
    pose proof (Path_mkdir_failure _ _ _ _ _ _ Hmk) as [_ Ht]. simpl in Ht. subst t1.
    split; [done|]. by apply compile_typescript_mkdir_error. }
  right. exists fs1.
  pose proof (Path_mkdir_success _ _ _ _ _ Hmk) as (_ & _ & Ht). simpl in Ht. subst t1.
  split; [done|]. cbn zeta.
  destruct (glob_paths fs1 PROTO_DIR "*.proto") as [|f files] eqn:Hg;
    [|destruct (installed "protoc") eqn:Hi].
  3:{ left. split; [done|]. split; [done|].
      by rewrite (compile_typescript_missing installed tool _ _ f files Hmk Hg Hi). }
  all: right; split; [auto|].
  all: rewrite (compile_typescript_complete installed tool _ _ Hmk)
         by first [done | left; exact Hg | right; done].
  all: reflexivity.
Qed.

(** What a run did is always an initial part of the full sequence of steps. *)
Lemma compile_python_trace_prefix installed tool fs0 :
  ∃ fs1, trace (compile_python installed tool (init fs0)).2
         `prefix_of` (py_steps tool fs1).1.
Proof.
  destruct (compile_python_cases installed tool fs0)
    as [(e & fs1 & _ & ->)|(fs1 & _ & [(_ & _ & ->)|[(_ & _ & ->)|(_ & _ & ->)]])].
  - exists fs0. apply prefix_nil.
  - exists fs1. unfold py_steps. cbn [fst snd trace]. by eexists.
  - exists fs1. unfold py_steps. cbn [fst snd trace].
    do 2 apply prefix_cons. apply prefix_app.
    do 2 apply prefix_cons. apply prefix_nil.
  - by exists fs1.
Qed.

Lemma compile_typescript_trace_prefix installed tool fs0 :
  ∃ fs1, trace (compile_typescript installed tool (init fs0)).2
         `prefix_of` (ts_steps tool fs1).1.
Proof.
  destruct (compile_typescript_cases installed tool fs0)
    as [(e & fs1 & _ & ->)|(fs1 & _ & [(_ & _ & ->)|(_ & ->)])].
  - exists fs0. apply prefix_nil.
  - exists fs1. unfold ts_steps. cbn [fst snd trace]. by eexists.
  - by exists fs1.
Qed.

(** * More on [Path.mkdir] *)

Section MkdirFrame.

Implicit Types (p q : list string) (w : World).

Lemma take_prefix_of p n : take n p `prefix_of` p.
Proof. exists (drop n p). by rewrite take_drop. Qed.

Lemma adds_dirs_along_refl p (fs0 : FS) : adds_dirs_along p fs0 fs0.
Proof. intros q. by left. Qed.

Lemma adds_dirs_along_trans p (fs0 fs1 fs2 : FS) :
  adds_dirs_along p fs0 fs1 → adds_dirs_along p fs1 fs2 → adds_dirs_along p fs0 fs2.
Proof.
  intros H1 H2 q.
  destruct (H1 q) as [E1|(N1 & D1 & Hne & Hq)], (H2 q) as [E2|(N2 & D2 & Hne' & Hq')].
  - left. congruence.
  - right. by rewrite <- E1.
  - right. by rewrite E2.
  - congruence.
Qed.

Lemma os_mkdir_adds n p w : adds_dirs_along p (fs w) (fs (os_mkdir (take n p) w).2).
Proof.
  unfold os_mkdir. destruct (take n p) as [|c q'] eqn:Hq; [apply adds_dirs_along_refl|].
  destruct (stat (fs w) (parent (c :: q'))) as [[]|[]]; try apply adds_dirs_along_refl.
  destruct (_ !! _) eqn:E; cbn [snd fs]; [apply adds_dirs_along_refl|].
  intros q. destruct (decide (q = c :: q')) as [->|Hne].
  - right. split; [done|]. split; [apply lookup_insert_eq|]. split; [done|].
    rewrite <- Hq. apply take_prefix_of.
  - left. by apply lookup_insert_ne.
Qed.

Lemma mkdir_except_OSError_same p exist_ok e w :
  (mkdir_except_OSError p exist_ok e w).2 = w.
Proof. unfold mkdir_except_OSError. by destruct (_ && _). Qed.

Lemma Path_mkdir_prefix_adds n p parents exist_ok w :
  adds_dirs_along p (fs w) (fs (Path_mkdir_prefix n p parents exist_ok w).2).
Proof.
  revert parents exist_ok w. induction n as [|k IH]; intros parents exist_ok w.
  - rewrite Path_mkdir_prefix_unfold. unfold try_except.
    pose proof (os_mkdir_adds 0 p w) as Hs.
    destruct (os_mkdir (take 0 p) w) as [[e|[]] w1]; cbn [snd] in *; [|done].
    destruct (is_FileNotFoundError e); [done|].
    by rewrite mkdir_except_OSError_same.
  - rewrite Path_mkdir_prefix_unfold. unfold try_except.
    pose proof (os_mkdir_adds (S k) p w) as Hs.
    destruct (os_mkdir (take (S k) p) w) as [[e|[]] w1]; cbn [snd] in *; [|done].
    destruct (is_FileNotFoundError e); [|by rewrite mkdir_except_OSError_same].
    destruct parents; [|done]. unfold mbind, M_bind.
    pose proof (IH true true w1) as Hs1.
    destruct (Path_mkdir_prefix k p true true w1) as [[e1|[]] w2]; cbn [snd] in *.
    { by eapply adds_dirs_along_trans. }
    pose proof (os_mkdir_adds (S k) p w2) as Hs2.
    destruct (os_mkdir (take (S k) p) w2) as [[e2|[]] w3]; cbn [snd] in *.
    + assert (adds_dirs_along p (fs w) (fs w3)) as H3.
      { eapply adds_dirs_along_trans; [|exact Hs2].
        by eapply adds_dirs_along_trans. }
      destruct (is_FileNotFoundError e2); [done|].
      by rewrite mkdir_except_OSError_same.
    + eapply adds_dirs_along_trans; [|exact Hs2].
      by eapply adds_dirs_along_trans.
Qed.

(** The errors of [os.mkdir]. *)
Lemma os_mkdir_error p w e w' :
  os_mkdir p w = (inl e, w') →
  w' = w
  ∧ ((∃ name, e = FileExistsError name) ∨ (∃ name, e = NotADirectoryError name)
     ∨ (∃ name, e = FileNotFoundError name)).
Proof.
  unfold os_mkdir. destruct p as [|c p'].
  { intros [= <- <-]. eauto. }
  destruct (stat (fs w) (parent (c :: p'))) as [[]|[]];
    try (intros [= <- <-]; by eauto 6).
  destruct (_ !! _); [|done]. intros [= <- <-]. eauto.
Qed.

(** Below an existing directory [os.mkdir] does not raise
    [FileNotFoundError]. *)
Lemma os_mkdir_below_dir q c w e w' :
  is_dir (fs w) q = true →
  os_mkdir (q ++ [c]) w = (inl e, w') →
  is_FileNotFoundError e = false.
Proof.
  intros Hq. rewrite os_mkdir_snoc. unfold is_dir in Hq.
  destruct (stat (fs w) q) as [|[]]; try done.
  destruct (_ !! _); [|done]. by intros [= <- <-].
Qed.

(** With [parents=True] a missing ancestor is never an error. *)
Lemma Path_mkdir_prefix_error n p exist_ok w e w' :
  n ≤ length p →
  Path_mkdir_prefix n p true exist_ok w = (inl e, w') →
  is_FileNotFoundError e = false.
Proof.
  revert exist_ok w e w'. induction n as [|k IH]; intros exist_ok w e w' Hn.
  - rewrite Path_mkdir_prefix_unfold. unfold try_except. rewrite take_0.
    cbn [os_mkdir]. cbn. unfold mkdir_except_OSError.
    destruct (_ && _); [done|]. by intros [= <- <-].
  - rewrite Path_mkdir_prefix_unfold. unfold try_except at 1.
    destruct (os_mkdir (take (S k) p) w) as [[e1|[]] w1] eqn:E1; [|done].
    destruct (is_FileNotFoundError e1) eqn:Hfnf.
    2:{ unfold mkdir_except_OSError. destruct (_ && _); [done|].
        by intros [= <- <-]. }
    unfold mbind, M_bind.
    destruct (Path_mkdir_prefix k p true true w1) as [[e2|[]] w2] eqn:E2.
    { intros [= <- <-]. eapply IH; [|exact E2]. lia. }
    apply Path_mkdir_prefix_success in E2.
    destruct (take_S_snoc p k) as [c Hc]; [lia|].
    unfold try_except.
    destruct (os_mkdir (take (S k) p) w2) as [[e3|[]] w3] eqn:E3; [|done].
    rewrite Hc in E3. pose proof (os_mkdir_below_dir _ _ _ _ _ E2 E3) as H3.
    rewrite H3. unfold mkdir_except_OSError.
    destruct (_ && _); [done|]. by intros [= <- <-].
Qed.

Lemma is_dir_lookup (fs0 : FS) p : p ≠ [] → is_dir fs0 p = true → fs0 !! p = Some Dir.
Proof.
  intros Hne Hd. destruct (path_split p Hne) as [c Hp]. rewrite Hp in Hd |- *.
  rewrite is_dir_snoc in Hd. by apply andb_true_iff in Hd as [_ ?%bool_decide_eq_true_1].
Qed.

End MkdirFrame.

(** A successful [Path.mkdir] had no regular file in its way. *)
Lemma Path_mkdir_success_clear (p : path) (w w' : World) :
  Path_mkdir p true true w = (inr tt, w') → path_clear (fs w) p = true.
Proof.
  intros Hmk. apply Path_mkdir_success in Hmk as (Hd & Hs & _).
  apply path_clear_spec. intros n Hn Hf.
  assert (fs w' !! take n p = Some Dir) as Hdir.
  { apply is_dir_lookup; [|by apply is_dir_take].
    intros Hnil. apply (f_equal length) in Hnil. rewrite length_take in Hnil.
    simpl in Hnil. lia. }
  eapply lookup_weaken in Hf; [|exact Hs]. congruence.
Qed.


(** X2. Whenever [Path.mkdir] returns normally, whatever its flags and
    whether it had to create anything, the path and each of its ancestors
    is a directory afterwards. *)
Theorem mkdir_success_leaves_directories
    (p : path) (parents exist_ok : bool) (w w' : World) :
  Path_mkdir p parents exist_ok w = (inr tt, w') →
  ∀ q, q `prefix_of` p → is_dir (fs w') q = true.
Proof.
  intros Hmk q Hq. apply Path_mkdir_success in Hmk as (Hd & _ & _).
  rewrite (prefix_take _ _ Hq). by apply is_dir_take.
Qed.

Lemma mkdir_success_leaves_directories_witness :
  is_dir (fs (Path_mkdir COMPILED_TS_DIR true true (init sample_fs)).2)
         ["packages"; "proto"; "src"] = true.
Proof.
  apply (mkdir_success_leaves_directories COMPILED_TS_DIR true true (init sample_fs)).
  - vm_compute. reflexivity.
  - by exists ["lib"; "gen"].
Defined.

(** X3. [Path.mkdir], whether it returns or raises, only ever adds
    directories, and only at prefixes of its path that were absent: every
    other entry is as before, and no event is emitted. *)
Theorem mkdir_only_adds_directories_along_path
    (p : path) (parents exist_ok : bool) (w : World) :
  let w' := (Path_mkdir p parents exist_ok w).2 in
  adds_dirs_along p (fs w) (fs w') ∧ trace w' = trace w.
Proof.
  intros w'. subst w'. split.
  - apply Path_mkdir_prefix_adds.
  - apply Path_mkdir_prefix_grows.
Qed.

Lemma Path_mkdir_parents_error (p : path) (exist_ok : bool) (w w' : World) (e : exn) :
  Path_mkdir p true exist_ok w = (inl e, w') →
  (∃ name, e = FileExistsError name) ∨ (∃ name, e = NotADirectoryError name).
Proof.
  intros Hmk.
  assert (is_FileNotFoundError e = false) as Hfnf.
  { eapply Path_mkdir_prefix_error; [|exact Hmk]. done. }
  assert (∀ n pa ok w0 e0 w0',
            Path_mkdir_prefix n p pa ok w0 = (inl e0, w0') →
            ∀ rc cmd, e0 ≠ CalledProcessError rc cmd) as Hkind.
  { induction n as [|k IH]; intros pa ok w0 e0 w0';
      rewrite Path_mkdir_prefix_unfold; unfold try_except at 1;
      destruct (os_mkdir (take _ p) w0) as [[e1|[]] w1] eqn:E1; try done;
      apply os_mkdir_error in E1 as [-> Hk].
    - destruct (is_FileNotFoundError e1).
      + intros [= <- <-] rc cmd ->. by destruct Hk as [[? ?]|[[? ?]|[? ?]]].
      + unfold mkdir_except_OSError. destruct (_ && _); [done|].
        intros [= <- <-] rc cmd ->. by destruct Hk as [[? ?]|[[? ?]|[? ?]]].
    - destruct (is_FileNotFoundError e1).
      + destruct pa.
        2:{ intros [= <- <-] rc cmd ->. by destruct Hk as [[? ?]|[[? ?]|[? ?]]]. }
        unfold mbind, M_bind.
        destruct (Path_mkdir_prefix k p true true w0) as [[e2|[]] w2] eqn:E2.
        { intros [= <- <-]. by eapply IH. }
        unfold try_except.
        destruct (os_mkdir (take (S k) p) w2) as [[e3|[]] w3] eqn:E3; [|done].
        apply os_mkdir_error in E3 as [-> Hk3].
        destruct (is_FileNotFoundError e3).
        * intros [= <- <-] rc cmd ->. by destruct Hk3 as [[? ?]|[[? ?]|[? ?]]].
        * unfold mkdir_except_OSError. destruct (_ && _); [done|].
          intros [= <- <-] rc cmd ->. by destruct Hk3 as [[? ?]|[[? ?]|[? ?]]].
      + unfold mkdir_except_OSError. destruct (_ && _); [done|].
        intros [= <- <-] rc cmd ->. by destruct Hk as [[? ?]|[[? ?]|[? ?]]]. }
  specialize (Hkind _ _ _ _ _ _ Hmk).
  destruct e; eauto; [done|by exfalso; eapply Hkind].
Qed.



(** * The enumeration of proto files *)

Section Glob.

Implicit Types (d p q : list string) (name pat : string).

Lemma fnmatch_star pat' name :
  fnmatch (String "*" pat') name
  = fnmatch pat' name
    || match name with
       | EmptyString => false
       | String _ name' => fnmatch (String "*" pat') name'
       end.
Proof. by destruct name. Qed.

(** [*] matches any run of characters, the empty one included. *)
Lemma fnmatch_star_spec pat' name :
  fnmatch (String "*" pat') name = true
  ↔ ∃ pre suf, name = pre +:+ suf ∧ fnmatch pat' suf = true.
Proof.
  induction name as [|a name IH]; rewrite fnmatch_star.
  - rewrite orb_false_r. split.
    + intros H. by exists "", "".
    + intros (pre & suf & Heq & H). destruct pre; [|done].
      change ("" +:+ suf) with suf in Heq. by subst.
  - rewrite orb_true_iff, IH. split.
    + intros [H|(pre & suf & -> & H)].
      * by exists "", (String a name).
      * by exists (String a pre), suf.
    + intros (pre & suf & Heq & H). destruct pre as [|b pre].
      * left. change ("" +:+ suf) with suf in Heq. by subst.
      * right. change (String b pre +:+ suf) with (String b (pre +:+ suf)) in Heq.
        injection Heq as -> ->. by exists pre, suf.
Qed.

(** A pattern without wildcards matches itself only. *)
Lemma fnmatch_literal pat name :
  forallb (λ c, negb (Ascii.eqb c "*") && negb (Ascii.eqb c "?"))
          (list_ascii_of_string pat) = true →
  fnmatch pat name = true ↔ name = pat.
Proof.
  revert name. induction pat as [|c pat IH]; intros name Hlit.
  - by destruct name.
  - simpl in Hlit. apply andb_true_iff in Hlit as [Hc Hlit].
    apply andb_true_iff in Hc as [Hstar Hq].
    apply negb_true_iff in Hstar, Hq. cbn [fnmatch]. rewrite Hstar, Hq.
    destruct name as [|a name]; [done|].
    rewrite andb_true_iff, IH by done. split.
    + intros [Ha ->]. apply Ascii.eqb_eq in Ha. by subst.
    + intros [= -> ->]. split; [apply Ascii.eqb_refl|done].
Qed.

Lemma last_snoc_path q c : last (q ++ [c]) = Some c.
Proof. apply last_snoc. Qed.

Lemma entry_name_spec d q name : entry_name d q = Some name ↔ q = d ++ [name].
Proof.
  unfold entry_name. split.
  - case_decide as Hq; [|done]. destruct Hq as [Hne Hpar].
    destruct (path_split q Hne) as [c Hc]. intros Hlast.
    rewrite Hc, last_snoc_path in Hlast. injection Hlast as ->.
    by rewrite Hc, Hpar.
  - intros ->. rewrite decide_True.
    + apply last_snoc_path.
    + split; [by destruct d|apply parent_snoc].
Qed.

Lemma scandir_spec (fs0 : FS) d name :
  name ∈ scandir fs0 d ↔ is_Some (fs0 !! (d ++ [name])).
Proof.
  unfold scandir. rewrite list_elem_of_omap. split.
  - intros ([q k] & Hin & Hname). apply elem_of_map_to_list in Hin.
    apply entry_name_spec in Hname. simpl in Hname. subst q. by eexists.
  - intros [k Hk]. exists (d ++ [name], k). split.
    + by apply elem_of_map_to_list.
    + by apply entry_name_spec.
Qed.

Lemma entry_names_NoDup d (l : list (list string * kind)) :
  NoDup l.*1 → NoDup (omap (λ kv : list string * kind, entry_name d kv.1) l).
Proof.
  induction l as [|[q k] l IH]; intros Hnd; [constructor|].
  rewrite fmap_cons in Hnd. apply NoDup_cons in Hnd as [Hq Hnd].
  cbn [omap list_omap fst].
  destruct (entry_name d q) as [name|] eqn:Hname; [|by apply IH].
  apply NoDup_cons. split; [|by apply IH].
  intros ([q' k'] & Hin & Hname')%list_elem_of_omap.
  apply entry_name_spec in Hname, Hname'. simpl in Hname'. subst q q'.
  apply Hq. apply list_elem_of_fmap. by exists (d ++ [name], k').
Qed.

Lemma scandir_NoDup (fs0 : FS) d : NoDup (scandir fs0 d).
Proof. apply entry_names_NoDup, NoDup_fst_map_to_list. Qed.

Lemma glob_paths_spec (fs0 : FS) d pat p :
  p ∈ glob_paths fs0 d pat
  ↔ is_dir fs0 d = true
    ∧ ∃ name, p = d ++ [name] ∧ is_Some (fs0 !! p) ∧ fnmatch pat name = true.
Proof.
  unfold glob_paths. destruct (is_dir fs0 d).
  - rewrite list_elem_of_fmap. split.
    + intros (name & -> & Hin). split; [done|]. exists name.
      apply list_elem_of_In, filter_In in Hin as [Hin Hm].
      apply list_elem_of_In, scandir_spec in Hin. done.
    + intros (_ & name & -> & Hs & Hm). exists name. split; [done|].
      apply list_elem_of_In, filter_In. split; [|done].
      by apply list_elem_of_In, scandir_spec.
  - split; [by intros ?%elem_of_nil|by intros [? _]].
Qed.

Lemma glob_paths_NoDup (fs0 : FS) d pat : NoDup (glob_paths fs0 d pat).
Proof.
  unfold glob_paths. destruct (is_dir fs0 d); [|constructor].
  apply NoDup_fmap_2.
  - intros n1 n2 Heq. by simplify_list_eq.
  - apply NoDup_ListNoDup, List.NoDup_filter, NoDup_ListNoDup, scandir_NoDup.
Qed.

End Glob.

Lemma proto_pattern_suffix (name : string) :
  fnmatch "*.proto" name = true ↔ ∃ stem, name = stem +:+ ".proto".
Proof.
  rewrite fnmatch_star_spec. split.
  - intros (pre & suf & -> & H). apply fnmatch_literal in H; [|done].
    subst. by exists pre.
  - intros [stem ->]. exists stem, ".proto". split; [done|].
    by apply fnmatch_literal.
Qed.

(** X5. The pattern of the scripts, ["*.proto"], matches exactly the names
    that end in [.proto]; the part before may be empty or contain dots. *)
Theorem proto_pattern_matches_suffix (name : string) :
  fnmatch "*.proto" name = true ↔ ∃ stem, name = stem +:+ ".proto".
Proof. apply proto_pattern_suffix. Qed.


(** X7. An enumeration yields no path twice. *)
Theorem glob_yields_no_duplicates (fs0 : FS) (d : path) (pat : string) :
  NoDup (glob_paths fs0 d pat).
Proof. apply glob_paths_NoDup. Qed.

(** * How a run can fail *)


Lemma logs_before_fixer tool files fs1 (tail : list event) :
  logs ([EvLog "Compiling proto files for Python...";
         EvGlob PROTO_DIR "*.proto" files]
        ++ (run_tools tool (py_calls files) fs1).1 ++ tail)
  = "Compiling proto files for Python..." :: logs tail.
Proof. rewrite !logs_app, logs_run_tools. done. Qed.

(** X9. The completion message is logged exactly when the script returns
    normally: no run that ends in an exception reports completion, and
    every run that returns has reported it. *)
Theorem completion_logged_iff_normal_return
    (installed : string → bool)
    (tool : list string → gmap (list string) kind → proc_result) (fs0 : FS) :
  (let r := compile_python installed tool (init fs0) in
   py_done_msg ∈ logs (trace r.2) ↔ r.1 = inr tt)
  ∧ (let r := compile_typescript installed tool (init fs0) in
     ts_done_msg ∈ logs (trace r.2) ↔ r.1 = inr tt).
Proof.
  split; intros r; subst r.
  - destruct (compile_python_cases installed tool fs0)
      as [(e & fs1 & Hmk & ->)|(fs1 & _ & [(_ & _ & ->)|[(_ & _ & ->)|(_ & _ & ->)]])];
      cbn [fst snd trace].
    + split; [by intros ?%elem_of_nil|done].
    + split; [|done]. cbn. intros Hin. elem_cases Hin. by vm_compute in Hin.
    + split; [|done]. rewrite logs_before_fixer. cbn.
      intros Hin. elem_cases Hin; by vm_compute in Hin.
    + split; [done|]. intros _. rewrite py_steps_logs.
      do 2 apply list_elem_of_further. apply list_elem_of_here.
  - destruct (compile_typescript_cases installed tool fs0)
      as [(e & fs1 & Hmk & ->)|(fs1 & _ & [(_ & _ & ->)|(_ & ->)])];
      cbn [fst snd trace].
    + split; [by intros ?%elem_of_nil|done].
    + split; [|done]. cbn. intros Hin. elem_cases Hin. by vm_compute in Hin.
    + split; [done|]. intros _. rewrite ts_steps_logs.
      apply list_elem_of_further, list_elem_of_here.
Qed.

(** X10. When a regular file sits where the output directory or one of its
    ancestors has to be, the script raises in its first statement: nothing
    is logged, enumerated or started, and the file system has at most gained
    directories on the way to the output directory.  Otherwise the first
    thing the script does after the directory step is to log. *)
Theorem blocked_output_directory_stops_the_script
    (installed : string → bool)
    (tool : list string → gmap (list string) kind → proc_result) (fs0 : FS) :
  (let r := compile_python installed tool (init fs0) in
   (path_clear fs0 COMPILED_PY_DIR = false →
      trace r.2 = []
      ∧ (∃ name, r.1 = inl (FileExistsError name) ∨ r.1 = inl (NotADirectoryError name))
      ∧ adds_dirs_along COMPILED_PY_DIR fs0 (fs r.2))
   ∧ (path_clear fs0 COMPILED_PY_DIR = true →
        head (trace r.2) = Some (EvLog "Compiling proto files for Python...")))
  ∧ (let r := compile_typescript installed tool (init fs0) in
     (path_clear fs0 COMPILED_TS_DIR = false →
        trace r.2 = []
        ∧ (∃ name, r.1 = inl (FileExistsError name) ∨ r.1 = inl (NotADirectoryError name))
        ∧ adds_dirs_along COMPILED_TS_DIR fs0 (fs r.2))
     ∧ (path_clear fs0 COMPILED_TS_DIR = true →
          head (trace r.2) = Some (EvLog "Compiling proto files for TypeScript..."))).
Proof.
  split; intros r; subst r.
  - pose proof (Path_mkdir_prefix_adds (length COMPILED_PY_DIR) COMPILED_PY_DIR
                  true true (init fs0)) as Hadds.
    fold (Path_mkdir COMPILED_PY_DIR true true) in Hadds.
    destruct (compile_python_cases installed tool fs0)
      as [(e & fs1 & Hmk & ->)|(fs1 & Hmk & Hcases)].
    + rewrite Hmk in Hadds. cbn [fst snd trace fs init] in *. split.
      * intros _. split; [done|]. split; [|done].
        apply Path_mkdir_parents_error in Hmk as [[name ->]|[name ->]]; eauto.
      * intros Hclear. apply Path_mkdir_ok with (w := init fs0) in Hclear
          as (fs2 & Hok & _). congruence.
    + split.
      * intros Hblocked. apply Path_mkdir_success_clear in Hmk.
        cbn [fs init] in Hmk. congruence.
      * intros _.
        destruct Hcases as [(_ & _ & ->)|[(_ & _ & ->)|(_ & _ & ->)]]; done.
  - pose proof (Path_mkdir_prefix_adds (length COMPILED_TS_DIR) COMPILED_TS_DIR
                  true true (init fs0)) as Hadds.
    fold (Path_mkdir COMPILED_TS_DIR true true) in Hadds.
    destruct (compile_typescript_cases installed tool fs0)
      as [(e & fs1 & Hmk & ->)|(fs1 & Hmk & Hcases)].
    + rewrite Hmk in Hadds. cbn [fst snd trace fs init] in *. split.
      * intros _. split; [done|]. split; [|done].
        apply Path_mkdir_parents_error in Hmk as [[name ->]|[name ->]]; eauto.
      * intros Hclear. apply Path_mkdir_ok with (w := init fs0) in Hclear
          as (fs2 & Hok & _). congruence.
    + split.
      * intros Hblocked. apply Path_mkdir_success_clear in Hmk.
        cbn [fs init] in Hmk. congruence.
      * intros _.
        destruct Hcases as [(_ & _ & ->)|(_ & ->)]; done.
Qed.

Lemma blocked_output_directory_stops_the_script_witness :
  let fs0 : FS := <[ ["packages"] := File ]> (<[ ["backend"; "packages"] := File ]> ∅) in
  (let r := compile_python all_installed quiet_tool (init fs0) in
   trace r.2 = []
   ∧ (∃ name, r.1 = inl (FileExistsError name) ∨ r.1 = inl (NotADirectoryError name))
   ∧ adds_dirs_along COMPILED_PY_DIR fs0 (fs r.2))
  ∧ (let r := compile_typescript all_installed quiet_tool (init fs0) in
     trace r.2 = []
     ∧ (∃ name, r.1 = inl (FileExistsError name) ∨ r.1 = inl (NotADirectoryError name))
     ∧ adds_dirs_along COMPILED_TS_DIR fs0 (fs r.2))
  ∧ (head (trace (compile_python all_installed quiet_tool (init sample_fs)).2)
       = Some (EvLog "Compiling proto files for Python...")
     ∧ head (trace (compile_typescript all_installed quiet_tool (init sample_fs)).2)
       = Some (EvLog "Compiling proto files for TypeScript...")).
Proof.
  intros fs0.
  destruct (blocked_output_directory_stops_the_script all_installed quiet_tool fs0)
    as [[Hpy _] [Hts _]].
  destruct (blocked_output_directory_stops_the_script all_installed quiet_tool sample_fs)
    as [[_ Hpy'] [_ Hts']].
  split; [apply Hpy; vm_compute; reflexivity|].
  split; [apply Hts; vm_compute; reflexivity|].
  split; [apply Hpy'|apply Hts']; vm_compute; reflexivity.
Defined.

(** * One child at a time *)

Section Sequential.

Variable tool : list string → gmap (list string) kind → proc_result.

Implicit Types (t : list event) (acc : list (list string)).

Lemma pending_bound_app acc t1 t2 :
  (∀ i, length (foldl pending_step acc (take i t1)) ≤ 1) →
  (∀ i, length (foldl pending_step (foldl pending_step acc t1) (take i t2)) ≤ 1) →
  ∀ i, length (foldl pending_step acc (take i (t1 ++ t2))) ≤ 1.
Proof.
  intros H1 H2 i. rewrite take_app, foldl_app.
  destruct (decide (i ≤ length t1)) as [Hle|Hgt].
  - replace (i - length t1) with 0 by lia. rewrite take_0. apply H1.
  - rewrite (take_ge t1) by lia. apply H2.
Qed.

Lemma pending_bound_run_tools calls fs0 i :
  length (foldl pending_step [] (take i (run_tools tool calls fs0).1)) ≤ 1.
Proof.
  revert fs0 i. induction calls as [|a calls IH]; intros fs0 i.
  - destruct i; cbn; lia.
  - destruct i as [|[|i]]; [cbn; lia..|].
    cbn [run_tools fst take foldl pending_step app remove_first].
    rewrite decide_True by done. apply IH.
Qed.

Lemma one_child_at_a_time_prefix t1 t2 :
  t1 `prefix_of` t2 → one_child_at_a_time t2 → one_child_at_a_time t1.
Proof.
  intros [k ->] H i. destruct (decide (i ≤ length t1)) as [Hle|Hgt].
  - specialize (H i). by rewrite take_app_le in H.
  - rewrite take_ge by lia. specialize (H (length t1)).
    by rewrite take_app_length in H.
Qed.

Lemma py_steps_one_child_at_a_time fs1 : one_child_at_a_time (py_steps tool fs1).1.
Proof.
  unfold one_child_at_a_time, pending, py_steps. cbn [fst].
  apply pending_bound_app.
  { intros i. destruct i as [|[|[|]]]; cbn; lia. }
  apply pending_bound_app.
  { apply pending_bound_run_tools. }
  cbn [foldl pending_step]. rewrite pending_run_tools.
  intros i. destruct i as [|[|[|[|[|[|]]]]]];
    cbn [take foldl pending_step app remove_first];
    rewrite ?decide_True by done; cbn; lia.
Qed.

Lemma ts_steps_one_child_at_a_time fs1 : one_child_at_a_time (ts_steps tool fs1).1.
Proof.
  unfold one_child_at_a_time, pending, ts_steps. cbn [fst].
  apply pending_bound_app.
  { intros i. destruct i as [|[|[|]]]; cbn; lia. }
  apply pending_bound_app.
  { apply pending_bound_run_tools. }
  cbn [foldl pending_step]. rewrite pending_run_tools.
  intros i. destruct i as [|[|]]; cbn; lia.
Qed.

Lemma pending_around_loop calls fs0 (t1 t2 : list event) :
  pending t1 = [] →
  foldl pending_step [] t2 = [] →
  pending (t1 ++ (run_tools tool calls fs0).1 ++ t2) = [].
Proof.
  intros H1 H2. rewrite pending_app, H1, foldl_app, pending_run_tools. done.
Qed.

End Sequential.

(** X11. The children of a run never overlap: at every moment of either
    script at most one child process is running, and when the script ends,
    normally or with an exception, none is left running. *)
Theorem children_run_one_at_a_time
    (installed : string → bool)
    (tool : list string → gmap (list string) kind → proc_result) (fs0 : FS) :
  (let t := trace (compile_python installed tool (init fs0)).2 in
   one_child_at_a_time t ∧ pending t = [])
  ∧ (let t := trace (compile_typescript installed tool (init fs0)).2 in
     one_child_at_a_time t ∧ pending t = []).
Proof.
  split; intros t; subst t; split.
  - destruct (compile_python_trace_prefix installed tool fs0) as [fs1 Hpre].
    eapply one_child_at_a_time_prefix; [exact Hpre|].
    apply py_steps_one_child_at_a_time.
  - destruct (compile_python_cases installed tool fs0)
      as [(e & fs1 & Hmk & ->)|(fs1 & _ & [(_ & _ & ->)|[(_ & _ & ->)|(_ & _ & ->)]])];
      cbn [fst snd trace]; [done|done| |].
    + by apply pending_around_loop.
    + unfold py_steps. cbn [fst]. apply pending_around_loop; [done|].
      cbn [foldl pending_step app remove_first]. by rewrite decide_True.
  - destruct (compile_typescript_trace_prefix installed tool fs0) as [fs1 Hpre].
    eapply one_child_at_a_time_prefix; [exact Hpre|].
    apply ts_steps_one_child_at_a_time.
  - destruct (compile_typescript_cases installed tool fs0)
      as [(e & fs1 & Hmk & ->)|(fs1 & _ & [(_ & _ & ->)|(_ & ->)])];
      cbn [fst snd trace]; [done|done|].
    unfold ts_steps. cbn [fst]. by apply pending_around_loop.
Qed.

(** * Which processes a run starts *)

Lemma spawned_around_loop tool calls fs0 (t1 t2 : list event) :
  spawned (t1 ++ (run_tools tool calls fs0).1 ++ t2) = spawned t1 ++ calls ++ spawned t2.
Proof. by rewrite !spawned_app, spawned_run_tools. Qed.

(** The command lines of any Python run: none, the compilers of all the
    enumerated files, or these followed by the import fixer. *)
Lemma compile_python_spawned installed tool fs0 :
  ∃ fs1 fixed,
    let t := trace (compile_python installed tool (init fs0)).2 in
    let files := glob_paths fs1 PROTO_DIR "*.proto" in
    spawned t = []
    ∨ spawned t = py_calls files
    ∨ spawned t = py_calls files ++ [call_args (protol_call fixed)].
Proof.
  destruct (compile_python_cases installed tool fs0)
    as [(e & fs1 & _ & ->)|(fs1 & _ & [(_ & _ & ->)|[(_ & _ & ->)|(_ & _ & ->)]])];
    exists fs1; eexists; cbn [fst snd trace]; cbn zeta.
  - by left.
  - by left.
  - right. left. rewrite spawned_around_loop. cbn. by rewrite app_nil_r.
  - right. right. apply py_steps_spawned.
  Unshelve. all: exact [].
Qed.

Lemma compile_typescript_spawned installed tool fs0 :
  ∃ fs1,
    let t := trace (compile_typescript installed tool (init fs0)).2 in
    spawned t = [] ∨ spawned t = ts_calls (glob_paths fs1 PROTO_DIR "*.proto").
Proof.
  destruct (compile_typescript_cases installed tool fs0)
    as [(e & fs1 & _ & ->)|(fs1 & _ & [(_ & _ & ->)|(_ & ->)])];
    exists fs1; cbn [fst snd trace]; cbn zeta.
  - by left.
  - by left.
  - right. apply ts_steps_spawned.
Qed.

Lemma py_calls_executable files a : a ∈ py_calls files → executable a = "python".
Proof. by intros (f & -> & _)%list_elem_of_fmap. Qed.

Lemma ts_calls_executable files a : a ∈ ts_calls files → executable a = "protoc".
Proof. by intros (f & -> & _)%list_elem_of_fmap. Qed.

(** X12. A run starts no program other than the ones named in the script:
    the Python script only [python] (the compiler) and [protol], and
    [protol] at most once; the TypeScript script only [protoc], and never an
    import fixer. *)
Theorem only_the_named_tools_are_started
    (installed : string → bool)
    (tool : list string → gmap (list string) kind → proc_result) (fs0 : FS) :
  (let t := trace (compile_python installed tool (init fs0)).2 in
   (∀ a, a ∈ spawned t → executable a = "python" ∨ executable a = "protol")
   ∧ length (fixer_calls t) ≤ 1)
  ∧ (let t := trace (compile_typescript installed tool (init fs0)).2 in
     (∀ a, a ∈ spawned t → executable a = "protoc")
     ∧ fixer_calls t = []).
Proof.
  split; intros t; subst t.
  - destruct (compile_python_spawned installed tool fs0) as (fs1 & fixed & H).
    cbn zeta in H. unfold fixer_calls.
    destruct H as [->|[->| ->]].
    + split; [by intros a ?%elem_of_nil|cbn; lia].
    + split.
      * intros a Ha. left. by eapply py_calls_executable.
      * rewrite (proj2 (py_calls_not_fixer _)). cbn. lia.
    + split.
      * intros a [Ha|Ha]%elem_of_app.
        -- left. by eapply py_calls_executable.
        -- right. apply list_elem_of_singleton in Ha. by subst.
      * rewrite List.filter_app, (proj2 (py_calls_not_fixer _)). cbn.
        destruct (is_fixer _); cbn; lia.
  - destruct (compile_typescript_spawned installed tool fs0) as (fs1 & H).
    cbn zeta in H. unfold fixer_calls. destruct H as [->| ->].
    + split; [by intros a ?%elem_of_nil|done].
    + split.
      * intros a Ha. by eapply ts_calls_executable.
      * apply ts_calls_not_fixer.
Qed.

(** * Which files a run compiles *)

Lemma proto_file_argument (fs1 : FS) f :
  f ∈ glob_paths fs1 PROTO_DIR "*.proto" →
  ∃ stem, f = ["proto"; stem +:+ ".proto"]
          ∧ path_str f = "proto/" +:+ stem +:+ ".proto"
          ∧ is_Some (fs1 !! f).
Proof.
  intros (_ & name & -> & Hex & Hm)%glob_paths_spec.
  apply proto_pattern_suffix in Hm as [stem ->]. by exists stem.
Qed.

Lemma proto_calls_NoDup (fs1 : FS) (mk : path → run_call) :
  (∀ f, last (call_args (mk f)) = Some (path_str f)) →
  NoDup ((λ f, call_args (mk f)) <$> glob_paths fs1 PROTO_DIR "*.proto").
Proof.
  intros Hlast. apply NoDup_fmap_2_strong; [|apply glob_paths_NoDup].
  intros f1 f2 Hf1 Hf2 Heq. apply (f_equal last) in Heq. rewrite !Hlast in Heq.
  apply proto_file_argument in Hf1 as (s1 & -> & E1 & _).
  apply proto_file_argument in Hf2 as (s2 & -> & E2 & _).
  rewrite E1, E2 in Heq. injection Heq as Heq.
  f_equal. f_equal. exact Heq.
Qed.

(** What any run compiles: nothing, or every file of the enumeration. *)
Lemma compile_python_compiler_calls installed tool fs0 :
  ∃ fs1, let t := trace (compile_python installed tool (init fs0)).2 in
         compiler_calls t = []
         ∨ compiler_calls t = py_calls (glob_paths fs1 PROTO_DIR "*.proto").
Proof.
  destruct (compile_python_spawned installed tool fs0) as (fs1 & fixed & H).
  exists fs1. cbn zeta in *. unfold compiler_calls.
  destruct H as [->|[->| ->]].
  - by left.
  - right. apply py_calls_not_fixer.
  - right. rewrite List.filter_app, (proj1 (py_calls_not_fixer _)). cbn.
    by rewrite app_nil_r.
Qed.

Lemma compile_typescript_compiler_calls installed tool fs0 :
  ∃ fs1, let t := trace (compile_typescript installed tool (init fs0)).2 in
         compiler_calls t = []
         ∨ compiler_calls t = ts_calls (glob_paths fs1 PROTO_DIR "*.proto").
Proof.
  destruct (compile_typescript_spawned installed tool fs0) as (fs1 & H).
  exists fs1. cbn zeta in *. unfold compiler_calls.
  destruct H as [->| ->]; [by left|right]. apply ts_calls_not_fixer.
Qed.

(** X13. In every run of either script, each compiler command line ends
    with [proto/<stem>.proto] for some stem, and no two compiler command
    lines of the run are the same: no file is compiled twice, and nothing
    outside the proto directory is ever compiled. *)
Theorem compiled_files_are_distinct_proto_entries
    (installed : string → bool)
    (tool : list string → gmap (list string) kind → proc_result) (fs0 : FS) :
  (let t := trace (compile_python installed tool (init fs0)).2 in
   (∀ a, a ∈ compiler_calls t →
         ∃ stem, last a = Some ("proto/" +:+ stem +:+ ".proto"))
   ∧ NoDup (compiler_calls t))
  ∧ (let t := trace (compile_typescript installed tool (init fs0)).2 in
     (∀ a, a ∈ compiler_calls t →
           ∃ stem, last a = Some ("proto/" +:+ stem +:+ ".proto"))
     ∧ NoDup (compiler_calls t)).
Proof.
  split; intros t; subst t.
  - destruct (compile_python_compiler_calls installed tool fs0) as (fs1 & H).
    cbn zeta in H. destruct H as [->| ->].
    { split; [by intros a ?%elem_of_nil|constructor]. }
    split; [|by apply proto_calls_NoDup].
    intros a (f & -> & Hf)%list_elem_of_fmap.
    apply proto_file_argument in Hf as (stem & -> & _ & _). by exists stem.
  - destruct (compile_typescript_compiler_calls installed tool fs0) as (fs1 & H).
    cbn zeta in H. destruct H as [->| ->].
    { split; [by intros a ?%elem_of_nil|constructor]. }
    split; [|by apply proto_calls_NoDup].
    intros a (f & -> & Hf)%list_elem_of_fmap.
    apply proto_file_argument in Hf as (stem & -> & _ & _). by exists stem.
Qed.

(** * Tools that cannot be started *)

(** X14. When the compiler can be started and [protol] cannot, the failure
    shows only after the loop: every enumerated file has been compiled and
    its compiler has exited, the directory has been enumerated a second
    time, and then the script ends with [FileNotFoundError] without having
    started an import fixer. *)
Theorem missing_import_fixer_is_found_after_compiling
    (installed : string → bool)
    (tool : list string → gmap (list string) kind → proc_result) (fs0 : FS) :
  path_clear fs0 COMPILED_PY_DIR = true →
  installed "python" = true →
  installed "protol" = false →
  let r := compile_python installed tool (init fs0) in
  r.1 = inl (FileNotFoundError "protol")
  ∧ (∃ files fixed, globs (trace r.2) = [files; fixed]
                    ∧ compiler_calls (trace r.2) = py_calls files)
  ∧ fixer_calls (trace r.2) = []
  ∧ (∀ a, a ∈ compiler_calls (trace r.2) → ∃ rc out, EvExit a rc out ∈ trace r.2).
Proof.
  intros Hclear Hipy Hiprotol r. subst r.
  destruct (Path_mkdir_ok COMPILED_PY_DIR (init fs0)) as (fs1 & Hmk & _ & _); [done|].
  rewrite (compile_python_missing_protol installed tool _ _ Hmk) by auto.
  cbn [fst snd trace fs init]. rewrite !app_nil_l.
  set (files := glob_paths fs1 PROTO_DIR "*.proto").
  assert (spawned ([EvLog "Compiling proto files for Python...";
                    EvGlob PROTO_DIR "*.proto" files]
                   ++ (run_tools tool (py_calls files) fs1).1
                   ++ [EvLog "Fixing imports for Python...";
                       EvGlob PROTO_DIR "*.proto"
                         (glob_paths (run_tools tool (py_calls files) fs1).2
                            PROTO_DIR "*.proto")])
          = py_calls files) as Hsp.
  { rewrite spawned_around_loop. cbn. by rewrite app_nil_r. }
  assert (∀ t, spawned t = py_calls files →
               compiler_calls t = py_calls files ∧ fixer_calls t = []) as Hcalls.
  { intros t Ht. unfold compiler_calls, fixer_calls. rewrite Ht.
    apply py_calls_not_fixer. }
  destruct (Hcalls _ Hsp) as [Hcc Hfc].
  split; [done|]. split; [|split; [done|]].
  - eexists _, _. split; [|exact Hcc].
    rewrite !globs_app, globs_run_tools. reflexivity.
  - intros a Ha. rewrite Hcc in Ha.
    destruct (exits_run_tools tool _ fs1 a Ha) as (rc & out & Hin).
    exists rc, out. apply elem_of_app. right. apply elem_of_app. by left.
Qed.

Lemma missing_import_fixer_is_found_after_compiling_witness :
  let r := compile_python (λ exe, bool_decide (exe ≠ "protol")) failing_tool
             (init sample_fs) in
  r.1 = inl (FileNotFoundError "protol")
  ∧ (∃ files fixed, globs (trace r.2) = [files; fixed]
                    ∧ compiler_calls (trace r.2) = py_calls files)
  ∧ fixer_calls (trace r.2) = []
  ∧ (∀ a, a ∈ compiler_calls (trace r.2) → ∃ rc out, EvExit a rc out ∈ trace r.2).
Proof.
  apply (missing_import_fixer_is_found_after_compiling
           (λ exe, bool_decide (exe ≠ "protol")) failing_tool sample_fs);
    vm_compute; reflexivity.
Defined.

(** X15. When the compiler cannot be started, the script ends with
    [FileNotFoundError] at the first enumerated file, before any child
    exists; with nothing to compile the missing compiler goes unnoticed
    (the TypeScript script then returns normally). *)
Theorem missing_compiler_is_found_at_the_first_file
    (installed : string → bool)
    (tool : list string → gmap (list string) kind → proc_result) (fs0 : FS) :
  (path_clear fs0 COMPILED_PY_DIR = true →
   installed "python" = false →
   let r := compile_python installed tool (init fs0) in
   ∃ files, globs (trace r.2) !! 0 = Some files
            ∧ compiler_calls (trace r.2) = []
            ∧ (files ≠ [] → r.1 = inl (FileNotFoundError "python")
                            ∧ spawned (trace r.2) = []))
  ∧ (path_clear fs0 COMPILED_TS_DIR = true →
     installed "protoc" = false →
     let r := compile_typescript installed tool (init fs0) in
     ∃ files, globs (trace r.2) = [files]
              ∧ spawned (trace r.2) = []
              ∧ (files ≠ [] → r.1 = inl (FileNotFoundError "protoc"))
              ∧ (files = [] → r.1 = inr tt)).
Proof.
  split; intros Hclear Hi r; subst r.
  - destruct (Path_mkdir_ok COMPILED_PY_DIR (init fs0)) as (fs1 & Hmk' & _ & _); [done|].
    destruct (compile_python_cases installed tool fs0)
      as [(e & fs2 & Hmk & _)|(fs2 & Hmk & Hcases)]; [congruence|].
    cbn zeta in Hcases. exists (glob_paths fs2 PROTO_DIR "*.proto").
    destruct Hcases as [(Hne & _ & ->)|[([Hnil|Hi'] & _ & ->)|([Hnil|Hi'] & _ & ->)]];
      try congruence; cbn [fst snd trace].
    + done.
    + rewrite Hnil. done.
    + rewrite py_steps_globs, py_steps_compiler_calls. cbn zeta. rewrite Hnil. done.
  - destruct (Path_mkdir_ok COMPILED_TS_DIR (init fs0)) as (fs1 & Hmk' & _ & _); [done|].
    destruct (compile_typescript_cases installed tool fs0)
      as [(e & fs2 & Hmk & _)|(fs2 & Hmk & Hcases)]; [congruence|].
    cbn zeta in Hcases. exists (glob_paths fs2 PROTO_DIR "*.proto").
    destruct Hcases as [(Hne & _ & ->)|([Hnil|Hi'] & ->)];
      try congruence; cbn [fst snd trace].
    + done.
    + rewrite ts_steps_globs, ts_steps_spawned, Hnil. done.
Qed.

Lemma missing_compiler_is_found_at_the_first_file_witness :
  (let r := compile_python (λ _, false) quiet_tool (init sample_fs) in
   ∃ files, globs (trace r.2) !! 0 = Some files
            ∧ compiler_calls (trace r.2) = []
            ∧ (files ≠ [] → r.1 = inl (FileNotFoundError "python")
                            ∧ spawned (trace r.2) = []))
  ∧ (let r := compile_typescript (λ _, false) quiet_tool (init sample_fs) in
     ∃ files, globs (trace r.2) = [files]
              ∧ spawned (trace r.2) = []
              ∧ (files ≠ [] → r.1 = inl (FileNotFoundError "protoc"))
              ∧ (files = [] → r.1 = inr tt)).
Proof.
  destruct (missing_compiler_is_found_at_the_first_file (λ _, false) quiet_tool sample_fs)
    as [Hpy Hts].
  split; [apply Hpy|apply Hts]; vm_compute; reflexivity.
Defined.

(** * What is enumerated, and what the scripts write themselves *)

Lemma adds_dirs_along_other (p q : path) (fs0 fs1 : FS) :
  adds_dirs_along p fs0 fs1 → head q ≠ head p → fs1 !! q = fs0 !! q.
Proof.
  intros Hadds Hhead. destruct (Hadds q) as [E|(_ & _ & Hne & [k ->])]; [done|].
  destruct q; [done|]. done.
Qed.

(** Creating an output directory whose first component is not [proto]
    leaves the enumeration of the proto directory as it is. *)
Lemma glob_after_mkdir (out : path) (fs0 fs1 : FS) p :
  adds_dirs_along out fs0 fs1 →
  head out ≠ Some "proto" →
  p ∈ glob_paths fs1 PROTO_DIR "*.proto" ↔ p ∈ glob_paths fs0 PROTO_DIR "*.proto".
Proof.
  intros Hadds Hout.
  assert (∀ q, head q = Some "proto" → fs1 !! q = fs0 !! q) as Hsame.
  { intros q Hq. eapply adds_dirs_along_other; [done|]. congruence. }
  assert (is_dir fs1 PROTO_DIR = is_dir fs0 PROTO_DIR) as Hd.
  { change PROTO_DIR with ([] ++ ["proto"]). rewrite !is_dir_snoc.
    by rewrite Hsame. }
  rewrite !glob_paths_spec, Hd.
  split; intros (? & name & -> & Hex & Hm); (split; [done|]); exists name;
    (split; [done|]); (split; [|done]).
  - by rewrite <- Hsame.
  - by rewrite Hsame.
Qed.

Lemma proto_dir_is_dir (fs0 : FS) :
  is_dir fs0 PROTO_DIR = true ↔ fs0 !! ["proto"] = Some Dir.
Proof.
  change PROTO_DIR with ([] ++ ["proto"]). rewrite is_dir_snoc. simpl.
  apply bool_decide_eq_true.
Qed.

(** X16. What a run enumerates first, and therefore compiles, is decided by
    the file system it starts from: the enumeration yields exactly the
    entries [proto/<stem>.proto] of the initial file system, provided
    [proto] is a directory there, and nothing otherwise; creating the output
    directory does not change it. *)
Theorem enumeration_is_the_initial_proto_directory
    (installed : string → bool)
    (tool : list string → gmap (list string) kind → proc_result)
    (fs0 : FS) (files : list path) (p : path) :
  (globs (trace (compile_python installed tool (init fs0)).2) !! 0 = Some files →
   p ∈ files ↔ fs0 !! ["proto"] = Some Dir
              ∧ ∃ stem, p = ["proto"; stem +:+ ".proto"] ∧ is_Some (fs0 !! p))
  ∧ (globs (trace (compile_typescript installed tool (init fs0)).2) !! 0 = Some files →
     p ∈ files ↔ fs0 !! ["proto"] = Some Dir
                ∧ ∃ stem, p = ["proto"; stem +:+ ".proto"] ∧ is_Some (fs0 !! p)).
Proof.
  assert (∀ fs1 out, adds_dirs_along out fs0 fs1 → head out ≠ Some "proto" →
            p ∈ glob_paths fs1 PROTO_DIR "*.proto"
            ↔ fs0 !! ["proto"] = Some Dir
              ∧ ∃ stem, p = ["proto"; stem +:+ ".proto"] ∧ is_Some (fs0 !! p)) as Hglob.
  { intros fs1 out Hadds Hout. rewrite (glob_after_mkdir out fs0 fs1) by done.
    rewrite glob_paths_spec, proto_dir_is_dir. split.
    - intros (Hd & name & -> & Hex & [stem ->]%proto_pattern_suffix). eauto.
    - intros (Hd & stem & -> & Hex). split; [done|].
      exists (stem +:+ ".proto"). split; [done|]. split; [done|].
      apply proto_pattern_suffix. by exists stem. }
  split; intros Hfiles.
  - pose proof (Path_mkdir_prefix_adds (length COMPILED_PY_DIR) COMPILED_PY_DIR
                  true true (init fs0)) as Hadds.
    fold (Path_mkdir COMPILED_PY_DIR true true) in Hadds.
    destruct (compile_python_cases installed tool fs0)
      as [(e & fs1 & Hmk & Hr)|(fs1 & Hmk & Hcases)].
    { by rewrite Hr in Hfiles. }
    rewrite Hmk in Hadds. cbn [snd fs init] in Hadds.
    assert (files = glob_paths fs1 PROTO_DIR "*.proto") as ->.
    { cbn zeta in Hcases.
      destruct Hcases as [(_ & _ & Hr)|[(_ & _ & Hr)|(_ & _ & Hr)]];
        rewrite Hr in Hfiles; cbn [snd trace] in Hfiles.
      - by injection Hfiles.
      - by injection Hfiles.
      - rewrite py_steps_globs in Hfiles. by injection Hfiles. }
    by apply (Hglob fs1 COMPILED_PY_DIR).
  - pose proof (Path_mkdir_prefix_adds (length COMPILED_TS_DIR) COMPILED_TS_DIR
                  true true (init fs0)) as Hadds.
    fold (Path_mkdir COMPILED_TS_DIR true true) in Hadds.
    destruct (compile_typescript_cases installed tool fs0)
      as [(e & fs1 & Hmk & Hr)|(fs1 & Hmk & Hcases)].
    { by rewrite Hr in Hfiles. }
    rewrite Hmk in Hadds. cbn [snd fs init] in Hadds.
    assert (files = glob_paths fs1 PROTO_DIR "*.proto") as ->.
    { cbn zeta in Hcases.
      destruct Hcases as [(_ & _ & Hr)|(_ & Hr)];
        rewrite Hr in Hfiles; cbn [snd trace] in Hfiles.
      - by injection Hfiles.
      - rewrite ts_steps_globs in Hfiles. by injection Hfiles. }
    by apply (Hglob fs1 COMPILED_TS_DIR).
Qed.

Lemma enumeration_is_the_initial_proto_directory_witness :
  let files := [["proto"; "b.proto"]; ["proto"; "a.proto"]] in
  let p := ["proto"; "README.md"] in
  (p ∈ files ↔ sample_fs !! ["proto"] = Some Dir
              ∧ ∃ stem, p = ["proto"; stem +:+ ".proto"] ∧ is_Some (sample_fs !! p))
  ∧ (p ∈ files ↔ sample_fs !! ["proto"] = Some Dir
                ∧ ∃ stem, p = ["proto"; stem +:+ ".proto"] ∧ is_Some (sample_fs !! p)).
Proof.
  intros files p.
  destruct (enumeration_is_the_initial_proto_directory
              all_installed quiet_tool sample_fs files p) as [Hpy Hts].
  split; [apply Hpy|apply Hts]; vm_compute; reflexivity.
Defined.

(** X17. [Path.mkdir(parents=True, exist_ok=True)] is idempotent: doing it
    twice in a row is the same as doing it once, whether it succeeds or
    raises. *)
Theorem mkdir_twice_is_mkdir_once (p : path) (w : World) :
  (Path_mkdir p true true ;; Path_mkdir p true true) w = Path_mkdir p true true w.
Proof.
  unfold mbind, M_bind.
  destruct (Path_mkdir p true true w) as [[e|[]] w1] eqn:Hmk; [done|].
  apply Path_mkdir_success in Hmk as (Hd & _ & _).
  by apply Path_mkdir_exists.
Qed.

Lemma run_tools_inert tool calls (fs0 : FS) :
  (∀ args fs1, pr_fs (tool args fs1) = fs1) → (run_tools tool calls fs0).2 = fs0.
Proof.
  intros Hinert. revert fs0. induction calls as [|a calls IH]; intros fs0; [done|].
  cbn [run_tools snd]. by rewrite Hinert.
Qed.

(** X18. The scripts write nothing themselves except the chain of
    directories down to the output directory: when the tools leave the file
    system alone, the file system at the end of any run is the initial one
    with, at most, directories added on the way to the output directory. *)
Theorem scripts_only_create_the_output_directory
    (installed : string → bool)
    (tool : list string → gmap (list string) kind → proc_result) (fs0 : FS) :
  (∀ args fs1, pr_fs (tool args fs1) = fs1) →
  adds_dirs_along COMPILED_PY_DIR fs0 (fs (compile_python installed tool (init fs0)).2)
  ∧ adds_dirs_along COMPILED_TS_DIR fs0
      (fs (compile_typescript installed tool (init fs0)).2).
Proof.
  intros Hinert. split.
  - pose proof (Path_mkdir_prefix_adds (length COMPILED_PY_DIR) COMPILED_PY_DIR
                  true true (init fs0)) as Hadds.
    fold (Path_mkdir COMPILED_PY_DIR true true) in Hadds.
    destruct (Path_mkdir COMPILED_PY_DIR true true (init fs0)) as [[e|[]] w1] eqn:Hmk.
    { by rewrite (compile_python_mkdir_error installed tool _ _ _ Hmk). }
    destruct (compile_python_run installed tool _ _ Hmk) as (t & calls & -> & _).
    cbn [fs]. by rewrite run_tools_inert.
  - pose proof (Path_mkdir_prefix_adds (length COMPILED_TS_DIR) COMPILED_TS_DIR
                  true true (init fs0)) as Hadds.
    fold (Path_mkdir COMPILED_TS_DIR true true) in Hadds.
    destruct (Path_mkdir COMPILED_TS_DIR true true (init fs0)) as [[e|[]] w1] eqn:Hmk.
    { by rewrite (compile_typescript_mkdir_error installed tool _ _ _ Hmk). }
    destruct (compile_typescript_run installed tool _ _ Hmk) as (t & calls & -> & _).
    cbn [fs]. by rewrite run_tools_inert.
Qed.

Lemma scripts_only_create_the_output_directory_witness :
  adds_dirs_along COMPILED_PY_DIR sample_fs
    (fs (compile_python all_installed failing_tool (init sample_fs)).2)
  ∧ adds_dirs_along COMPILED_TS_DIR sample_fs
      (fs (compile_typescript all_installed failing_tool (init sample_fs)).2).
Proof.
  apply (scripts_only_create_the_output_directory all_installed failing_tool sample_fs).
  intros args fs1. reflexivity.
Defined.
